(** * MPD: the Vorbis encoder plugin and the Winmm mixer plugin

    A shallow embedding of [src/encoder/VorbisEncoderPlugin.cxx] and of the
    volume conversion of [src/mixer/plugins/WinmmMixerPlugin.cxx], with the
    properties of the encoding session proved over it.

    Layout:
    - [CNum]: C integer conversions and IEEE-754 arithmetic ([double] and
      [float] as [spec_float] of the Standard Library, in pure Gallina);
    - [Winmm]: [winmm_volume_decode], [winmm_volume_encode];
    - [Glib]: [g_ascii_strtod], [g_ascii_strtoll], [g_ascii_strup];
    - [Vorbis]: the encoder, over an interface [Libvorbis] of the codec
      library and a call-history model of [OggStream]; [Vorbis.Reference]
      is a small instance of the libraries on which the encoder runs;
    - the properties: the volume round trip, the drain loops, the
      de-interleaving, the stream history, and the session. *)

From Stdlib Require Import ZArith Lia Bool List Ascii String.
From Stdlib Require Import Floats.SpecFloat.
From Stdlib Require Import DecimalString DecimalPos DecimalZ.
From stdpp Require Import base list.

Local Open Scope Z_scope.

(* ===================================================================== *)
(** * C numbers *)
(* ===================================================================== *)

Module CNum.

(** ** Integer conversions *)

(** Conversion to [unsigned] (32 bits): reduction modulo 2^32. *)
Definition to_unsigned (z : Z) : Z := z mod 2 ^ 32.

(** Conversion to [int] (32 bits, two's complement). *)
Definition to_int (z : Z) : Z := (z + 2 ^ 31) mod 2 ^ 32 - 2 ^ 31.

Definition INT_MAX : Z := 2 ^ 31 - 1.

(** The largest [size_t], where it is 64 bits wide. *)
Definition SIZE_MAX : Z := 2 ^ 64 - 1.

(** ** IEEE-754 binary64 ([double]) and binary32 ([float]) *)

Definition double : Type := spec_float.
Definition float : Type := spec_float.

Definition dprec : Z := 53.
Definition demax : Z := 1024.
Definition fprec : Z := 24.
Definition femax : Z := 128.

(** An integer converted to [double] (round to nearest even). *)
Definition double_of_Z (z : Z) : double := binary_normalize dprec demax z 0 false.

(** The [double] nearest to [m * 10^e10]: what a decimal literal or a
    correctly rounded [strtod] gives for the decimal [m]e[e10]. *)
Definition double_of_decimal (neg : bool) (m : Z) (e10 : Z) : double :=
  match m with
  | Zpos p =>
      if 0 <=? e10
      then binary_round dprec demax neg (p * Z.to_pos (10 ^ e10))%positive 0
      else
        let '(mz, ez, lz) :=
          SFdiv_core_binary dprec demax (Zpos p) 0 (10 ^ (- e10)) 0 in
        binary_round_aux dprec demax neg mz ez lz
  | _ => S754_zero neg
  end.

(** The [double] nearest to [m * 2^e2]: what a correctly rounded [strtod]
    gives for a hexadecimal constant. *)
Definition double_of_binary (neg : bool) (m : Z) (e2 : Z) : double :=
  match m with
  | Zpos p => binary_round dprec demax neg p e2
  | _ => S754_zero neg
  end.

(** [double] to [float]: rounding to binary32. *)
Definition float_of_double (d : double) : float :=
  match d with
  | S754_finite s m e => binary_round fprec femax s m e
  | _ => d
  end.

(** [float] to [double] (exact): the canonical binary64 form of the value. *)
Definition double_of_float (f : float) : double :=
  match f with
  | S754_finite s m e => binary_round dprec demax s m e
  | _ => f
  end.

Definition dmul : double -> double -> double := SFmul dprec demax.
Definition ddiv : double -> double -> double := SFdiv dprec demax.
Definition dltb : double -> double -> bool := SFltb.
Definition dleb : double -> double -> bool := SFleb.

(** [lround]: the nearest integer, halfway cases away from zero.  The
    result for infinities and NaN is unspecified in C; 0 here. *)
Definition lround (x : double) : Z :=
  match x with
  | S754_finite s m e =>
      let mag :=
        if 0 <=? e then Zpos m * 2 ^ e
        else
          let d := 2 ^ (- e) in
          let q := Zpos m / d in
          let r := Zpos m mod d in
          if d <=? 2 * r then q + 1 else q in
      if s then - mag else mag
  | _ => 0
  end.

End CNum.

(* ===================================================================== *)
(** * WinmmMixerPlugin.cxx: volume conversion *)
(* ===================================================================== *)

Module Winmm.
Import CNum.

(** The literal [655.35]. *)
Definition c655_35 : double := double_of_decimal false 65535 (-2).

(** [MAKELONG(a, b)] of <windows.h>: the low words of [a] and [b] as the
    low and high halves of a 32-bit value. *)
Definition MAKELONG (a b : Z) : Z :=
  Z.lor (Z.land a 65535) (Z.shiftl (Z.land b 65535) 16).

Definition LOWORD (l : Z) : Z := Z.land l 65535.
Definition HIWORD (l : Z) : Z := Z.land (Z.shiftr l 16) 65535.

(** [winmm_volume_decode(DWORD volume)]:
    [lround((volume & 0xFFFF) / 655.35)]. *)
Definition winmm_volume_decode (volume : Z) : Z :=
  to_int (lround (ddiv (double_of_Z (Z.land volume 65535)) c655_35)).

(** [winmm_volume_encode(int volume)]:
    [int value = lround(volume * 655.35); MAKELONG(value, value)]. *)
Definition winmm_volume_encode (volume : Z) : Z :=
  let value := to_int (lround (dmul (double_of_Z volume) c655_35)) in
  MAKELONG value value.

(** The check of one volume, as a boolean. *)
Definition volume_roundtrips (v : Z) : bool :=
  let d := winmm_volume_encode v in
  (winmm_volume_decode d =? v) && (LOWORD d =? HIWORD d)
  && (0 <=? d) && (d <? 2 ^ 32).

(** ** The mixer and its device *)

(** [MMSYSERR_NOERROR] of <mmsystem.h>. *)
Definition MMSYSERR_NOERROR : Z := 0.

(** The wave-out device behind [winmm_output_get_handle(output)]:
    [waveOutGetVolume] gives a result code and the volume,
    [waveOutSetVolume] a result code and the device after it. *)
Class WaveOut : Type := {
  HWAVEOUT : Type;
  waveOutGetVolume : HWAVEOUT -> Z * Z;
  waveOutSetVolume : HWAVEOUT -> Z -> Z * HWAVEOUT
}.

(** The errors of the mixer, by their messages. *)
Inductive mixer_error : Type :=
  | failed_to_get_winmm_volume   (* "Failed to get winmm volume" *)
  | failed_to_set_winmm_volume.  (* "Failed to set winmm volume" *)

(** [WinmmMixer::GetVolume]: the value returned and the error set. *)
Definition GetVolume `{WaveOut} (handle : HWAVEOUT) : Z * option mixer_error :=
  let '(result, volume) := waveOutGetVolume handle in
  if negb (result =? MMSYSERR_NOERROR)
  then (-1, Some failed_to_get_winmm_volume)
  else (winmm_volume_decode volume, None).

(** [WinmmMixer::SetVolume(unsigned volume, ...)]: the value returned,
    the error set, and the device. *)
Definition SetVolume `{WaveOut} (handle : HWAVEOUT) (volume : Z)
  : bool * option mixer_error * HWAVEOUT :=
  let value := winmm_volume_encode (to_int volume) in
  let '(result, handle') := waveOutSetVolume handle value in
  if negb (result =? MMSYSERR_NOERROR)
  then (false, Some failed_to_set_winmm_volume, handle')
  else (true, None, handle').

(** A device that keeps the volume it is given and never fails. *)
Definition stored_volume_device : WaveOut :=
  {| HWAVEOUT := Z;
     waveOutGetVolume := fun h => (MMSYSERR_NOERROR, h);
     waveOutSetVolume := fun _ value => (MMSYSERR_NOERROR, value) |}.

(** A boolean check over a range of integers [from, from + n). *)
Fixpoint all_from (from : Z) (n : nat) (f : Z -> bool) : bool :=
  match n with
  | O => true
  | S n' => f from && all_from (from + 1) n' f
  end.

End Winmm.

(* ===================================================================== *)
(** * GLib string functions used by the encoder *)
(* ===================================================================== *)

Module Glib.
Import CNum.

Definition code (c : ascii) : Z := Z.of_nat (nat_of_ascii c).

(** [g_ascii_isspace]: space, \t, \n, \v, \f, \r. *)
Definition g_ascii_isspace (c : ascii) : bool :=
  (code c =? 32) || ((9 <=? code c) && (code c <=? 13)).

Definition g_ascii_digit_value (c : ascii) : option Z :=
  if (48 <=? code c) && (code c <=? 57) then Some (code c - 48) else None.

Definition g_ascii_toupper (c : ascii) : ascii :=
  if (97 <=? code c) && (code c <=? 122)
  then ascii_of_nat (Z.to_nat (code c - 32)) else c.

(** [g_ascii_strup(str, -1)]: every ASCII lower-case letter upper-cased. *)
Fixpoint g_ascii_strup (s : string) : string :=
  match s with
  | EmptyString => EmptyString
  | String c s' => String (g_ascii_toupper c) (g_ascii_strup s')
  end.

Fixpoint skip_space (s : string) : string :=
  match s with
  | String c s' => if g_ascii_isspace c then skip_space s' else s
  | EmptyString => s
  end.

(** An optional sign: whether it is '-', and the rest. *)
Definition read_sign (s : string) : bool * string :=
  match s with
  | String "-"%char s' => (true, s')
  | String "+"%char s' => (false, s')
  | _ => (false, s)
  end.

(** A maximal run of decimal digits: the number read after [acc], how
    many digits were read, and the rest. *)
Fixpoint read_digits (acc : Z) (n : Z) (s : string) : Z * Z * string :=
  match s with
  | String c s' =>
      match g_ascii_digit_value c with
      | Some d => read_digits (10 * acc + d) (n + 1) s'
      | None => (acc, n, s)
      end
  | EmptyString => (acc, n, s)
  end.

(** [word] as a case-insensitive prefix of [s]: the rest of [s] after it. *)
Fixpoint strip_prefix_nocase (word s : string) : option string :=
  match word, s with
  | EmptyString, _ => Some s
  | String w word', String c s' =>
      if Ascii.eqb w (g_ascii_toupper c) then strip_prefix_nocase word' s'
      else None
  | String _ _, EmptyString => None
  end.

(** An exponent part: the letter [marker] in either case, an optional
    sign, digits ([e|E] of a decimal constant, [p|P] of a hexadecimal
    one); without a digit nothing of it is consumed. *)
Definition read_exponent_after (marker : ascii) (s : string) : Z * string :=
  match s with
  | String c s' =>
      if Ascii.eqb (g_ascii_toupper c) marker then
        let '(neg, s1) := read_sign s' in
        let '(e, n, s2) := read_digits 0 0 s1 in
        if n =? 0 then (0, s) else ((if neg then - e else e), s2)
      else (0, s)
  | EmptyString => (0, s)
  end.

Definition read_exponent (s : string) : Z * string :=
  read_exponent_after "E"%char s.

Definition read_binary_exponent (s : string) : Z * string :=
  read_exponent_after "P"%char s.

(** [g_ascii_xdigit_value] *)
Definition g_ascii_xdigit_value (c : ascii) : option Z :=
  if (48 <=? code c) && (code c <=? 57) then Some (code c - 48)
  else if (65 <=? code c) && (code c <=? 70) then Some (code c - 55)
  else if (97 <=? code c) && (code c <=? 102) then Some (code c - 87)
  else None.

(** A maximal run of hexadecimal digits, as [read_digits]. *)
Fixpoint read_xdigits (acc : Z) (n : Z) (s : string) : Z * Z * string :=
  match s with
  | String c s' =>
      match g_ascii_xdigit_value c with
      | Some d => read_xdigits (16 * acc + d) (n + 1) s'
      | None => (acc, n, s)
      end
  | EmptyString => (acc, n, s)
  end.

(** A hexadecimal floating constant, the sign apart:
    [0x|0X hexdigits [. hexdigits] [p|P [+|-] digits]] with at least one
    hexadecimal digit; the value is the [double] nearest to
    [m * 2^(e - 4 * nf)].  [None] where no hexadecimal digit follows the
    prefix: then only the [0] is a number. *)
Definition read_hexadecimal (neg : bool) (s : string)
  : option (double * string) :=
  match s with
  | String "0"%char (String x s0) =>
      if Ascii.eqb (g_ascii_toupper x) "X"%char then
        let '(ip, ni, s1) := read_xdigits 0 0 s0 in
        let '(m, nf, s2) :=
          match s1 with
          | String "."%char s' => read_xdigits ip 0 s'
          | _ => (ip, 0, s1)
          end in
        if ni + nf =? 0 then None
        else
          let '(e, s3) := read_binary_exponent s2 in
          Some (double_of_binary neg m (e - 4 * nf), s3)
      else None
  | _ => None
  end.

(** The characters of an n-char-sequence: digits, letters and [_]. *)
Definition is_n_char (c : ascii) : bool :=
  ((48 <=? code c) && (code c <=? 57))
  || ((65 <=? code c) && (code c <=? 90))
  || ((97 <=? code c) && (code c <=? 122))
  || (code c =? 95).

Fixpoint skip_n_chars (s : string) : string :=
  match s with
  | String c s' => if is_n_char c then skip_n_chars s' else s
  | EmptyString => s
  end.

(** After [NAN]: an optional [(n-char-sequence)]; without the closing
    parenthesis nothing of it is consumed. *)
Definition read_nan_sequence (rest : string) : string :=
  match rest with
  | String "("%char s' =>
      match skip_n_chars s' with
      | String ")"%char s'' => s''
      | _ => rest
      end
  | _ => rest
  end.

(** [g_ascii_strtod(nptr, &endptr)]: [strtod] in the C locale.  Returns the
    value and the unparsed rest of the string ([endptr]).  White space and
    a sign are skipped, then the longest of [INF]/[INFINITY], [NAN] or
    [NAN(n-char-sequence)], a hexadecimal floating constant and a decimal
    floating constant is converted, correctly rounded; when there is none
    the value is 0 and [endptr] is [nptr].  [errno] is not modelled: the
    plugin does not read it. *)
Definition g_ascii_strtod (nptr : string) : double * string :=
  let '(neg, s) := read_sign (skip_space nptr) in
  match strip_prefix_nocase "INFINITY"%string s with
  | Some rest => (S754_infinity neg, rest)
  | None =>
  match strip_prefix_nocase "INF"%string s with
  | Some rest => (S754_infinity neg, rest)
  | None =>
  match strip_prefix_nocase "NAN"%string s with
  | Some rest => (S754_nan, read_nan_sequence rest)
  | None =>
  match read_hexadecimal neg s with
  | Some result => result
  | None =>
      let '(ip, ni, s1) := read_digits 0 0 s in
      let '(m, nf, s2) :=
        match s1 with
        | String "."%char s' => read_digits ip 0 s'
        | _ => (ip, 0, s1)
        end in
      if ni + nf =? 0 then (S754_zero false, nptr)
      else
        let '(e, s3) := read_exponent s2 in
        (double_of_decimal neg m (e - nf), s3)
  end end end end.

Definition G_MAXINT64 : Z := 2 ^ 63 - 1.
Definition G_MININT64 : Z := - 2 ^ 63.

(** [g_ascii_strtoll(nptr, &endptr, 10)]: white space and a sign are
    skipped and the longest run of digits is converted, clamped to the
    range of [gint64]; without a digit the value is 0 and [endptr] is
    [nptr]. *)
Definition g_ascii_strtoll (nptr : string) : Z * string :=
  let '(neg, s) := read_sign (skip_space nptr) in
  let '(v, n, rest) := read_digits 0 0 s in
  if n =? 0 then (0, nptr)
  else
    let v := if neg then - v else v in
    (Z.max G_MININT64 (Z.min G_MAXINT64 v), rest).

End Glib.

(* ===================================================================== *)
(** * VorbisEncoderPlugin.cxx *)
(* ===================================================================== *)

Module Vorbis.
Import CNum Glib.

(** ** MPD types declared outside the plugin *)

(** [enum sample_format] of audio_format.h. *)
Inductive sample_format : Type :=
  | SAMPLE_FORMAT_UNDEFINED
  | SAMPLE_FORMAT_S8
  | SAMPLE_FORMAT_S16
  | SAMPLE_FORMAT_S24_P32
  | SAMPLE_FORMAT_S32
  | SAMPLE_FORMAT_FLOAT
  | SAMPLE_FORMAT_DSD.

(** [struct audio_format]. *)
Record audio_format : Type := mk_audio_format {
  sample_rate : Z;
  format : sample_format;
  channels : Z
}.

(** Modelled from the spec: [sample_format_size] of audio_format.h is not
    part of the sources; the sample width in bytes of each representation
    (single-precision float: 4). *)
Definition sample_format_size (f : sample_format) : Z :=
  match f with
  | SAMPLE_FORMAT_UNDEFINED => 0
  | SAMPLE_FORMAT_S8 => 1
  | SAMPLE_FORMAT_S16 => 2
  | SAMPLE_FORMAT_S24_P32 => 4
  | SAMPLE_FORMAT_S32 => 4
  | SAMPLE_FORMAT_FLOAT => 4
  | SAMPLE_FORMAT_DSD => 1
  end.

(** Modelled from the spec: [audio_format_frame_size] of audio_format.h is
    not part of the sources; "the frame size implied by channel count x
    sample width". *)
Definition audio_format_frame_size (af : audio_format) : Z :=
  sample_format_size (format af) * channels af.

(** The spec's AudioFormat: at least one channel (a [uint8_t]), a positive
    sample rate. *)
Definition audio_format_valid (af : audio_format) : Prop :=
  1 <= channels af <= 255 /\ 0 < sample_rate af.

(** [struct config_param]: the line of the block and its (name, value)
    settings. *)
Record config_param : Type := mk_config_param {
  line : Z;
  block_params : list (string * string)
}.

(** Modelled from the spec: [config_get_block_string] of conf.h is not part
    of the sources; "get_string(key) -> optional<string>" on the settings
    block, the default being [nullptr] at both calls of the plugin. *)
Fixpoint lookup_block_param (l : list (string * string)) (name : string)
  : option string :=
  match l with
  | [] => None
  | (n, v) :: l' => if String.eqb n name then Some v else lookup_block_param l' name
  end.

Definition config_get_block_string (param : config_param) (name : string)
  : option string :=
  lookup_block_param (block_params param) name.

(** The messages given to [g_set_error], by the place that sets them. *)
Inductive GError : Type :=
  | quality_not_a_number_in_range (value : string) (line : Z)
      (* "quality \"%s\" is not a number in the range -1 to 10, line %i" *)
  | quality_and_bitrate_both_defined (line : Z)
      (* "quality and bitrate are both defined (line %i)" *)
  | neither_bitrate_nor_quality_defined (line : Z)
      (* "neither bitrate nor quality defined at line %i" *)
  | bitrate_should_be_positive (line : Z)
      (* "bitrate at line %i should be a positive integer" *)
  | error_initializing_vorbis_vbr
      (* "error initializing vorbis vbr" *)
  | error_initializing_vorbis_encoder.
      (* "error initializing vorbis encoder" *)

(** The error names of the spec (section 7). *)
Inductive ConfigError : Type :=
  InvalidQuality | InvalidBitrate | ConflictingMode | MissingMode.

Definition config_error_of (e : GError) : option ConfigError :=
  match e with
  | quality_not_a_number_in_range _ _ => Some InvalidQuality
  | quality_and_bitrate_both_defined _ => Some ConflictingMode
  | neither_bitrate_nor_quality_defined _ => Some MissingMode
  | bitrate_should_be_positive _ => Some InvalidBitrate
  | _ => None
  end.

(** ** The container stream (OggStream.hxx) *)

(** The four kinds of packet libvorbis hands out: the three headers of
    [vorbis_analysis_headerout] and the audio packets of
    [vorbis_bitrate_flushpacket]. *)
Inductive packet_kind : Type := Identification | Comments | Setup | Audio.

Record ogg_packet (data : Type) : Type := mk_packet {
  kind : packet_kind;
  body : data
}.
Arguments mk_packet {data} _ _.
Arguments kind {data} _.
Arguments body {data} _.

(** Modelled from the spec: OggStream.hxx is not part of the sources.  The
    container stream is kept as the history of the calls it received, in
    order: [Initialize] is the spec's begin, [Reinitialize] restart,
    [PacketIn] submit, [Flush] flush, [PageOut] read and [Deinitialize]
    end.  What the spec says of the stream is read off this history. *)
Inductive stream_call (data : Type) : Type :=
  | Initialize (serialno : Z)
  | Reinitialize (serialno : Z)
  | Deinitialize
  | Flush
  | PacketIn (packet : ogg_packet data)
  | PageOut (size : Z).
Arguments Initialize {data} _.
Arguments Reinitialize {data} _.
Arguments Deinitialize {data}.
Arguments Flush {data}.
Arguments PacketIn {data} _.
Arguments PageOut {data} _.

(** libogg: the packet payloads, and how many bytes a [PageOut] with a
    buffer of [size] bytes copies after a given history. *)
Class Libogg : Type := {
  packet_data : Type;
  page_bytes : list (stream_call packet_data) -> Z -> Z
}.

Section Stream.
Context {LO : Libogg}.

Definition OggStream : Type := list (stream_call packet_data).

Definition OggStream_call (s : OggStream) (c : stream_call packet_data)
  : OggStream := s ++ [c].

(** The logical-stream identifier: the one given by the last begin or
    restart. *)
Fixpoint last_serialno (cur : option Z) (s : OggStream) : option Z :=
  match s with
  | [] => cur
  | Initialize n :: s' => last_serialno (Some n) s'
  | Reinitialize n :: s' => last_serialno (Some n) s'
  | _ :: s' => last_serialno cur s'
  end.

Definition serialno_of (s : OggStream) : option Z := last_serialno None s.

(** Whether a call gives the stream an identifier. *)
Definition assigns_serialno (c : stream_call packet_data) : bool :=
  match c with
  | Initialize _ | Reinitialize _ => true
  | _ => false
  end.

(** How many times the identifier was assigned: the calls that begin or
    restart a stream. *)
Definition serialno_assignments (s : OggStream) : nat :=
  length (List.filter assigns_serialno s).

(** Whether assigning [n] changes the identifier [cur]: 1 where it does,
    0 where [n] is the identifier in force. *)
Definition serialno_change (cur : option Z) (n : Z) : nat :=
  match cur with
  | Some m => if m =? n then 0%nat else 1%nat
  | None => 1%nat
  end.

(** How many times the identifier changed its value along a history that
    starts with the identifier [cur]. *)
Fixpoint serialno_changes_from (cur : option Z) (s : OggStream) : nat :=
  match s with
  | [] => 0%nat
  | Initialize n :: s' =>
      (serialno_change cur n + serialno_changes_from (Some n) s')%nat
  | Reinitialize n :: s' =>
      (serialno_change cur n + serialno_changes_from (Some n) s')%nat
  | _ :: s' => serialno_changes_from cur s'
  end.

Definition serialno_changes (s : OggStream) : nat :=
  serialno_changes_from None s.

End Stream.

(** ** libvorbis *)

(** [vorbis_comment]: the (tag, contents) pairs in the order added. *)
Definition vorbis_comment : Type := list (string * string).

Definition vorbis_comment_init : vorbis_comment := [].
Definition vorbis_comment_add_tag (vc : vorbis_comment) (tag contents : string)
  : vorbis_comment := vc ++ [(tag, contents)].
Definition vorbis_comment_clear (vc : vorbis_comment) : vorbis_comment := [].

(** The private side of libvorbis, which the plugin never looks into: the
    encoder setup behind [vorbis_info], the state behind
    [vorbis_dsp_state] (PCM storage, analysis position, bitrate
    management) and [vorbis_block].  Every function is the private part
    of the API function named after it.

    The two measures state that the drain loops of
    [vorbis_encoder_blockout] end: [vorbis_analysis_blockout] hands out
    finitely many blocks for the data written, and
    [vorbis_bitrate_flushpacket] finitely many packets for the blocks
    added. *)
Class Libvorbis {LO : Libogg} : Type := {
  codec_setup : Type;
  backend_state : Type;
  vorbis_block : Type;

  (* vorbis_encode_init_vbr (channels, rate, base_quality): the setup, or
     None where the library reports an error *)
  encode_setup_vbr : Z -> Z -> float -> option codec_setup;
  (* vorbis_encode_init (channels, rate, max, nominal, min bitrate) *)
  encode_setup_managed : Z -> Z -> Z -> Z -> Z -> option codec_setup;

  analysis_init : Z -> Z -> option codec_setup -> backend_state;
  dsp_clear : backend_state -> backend_state;
  block_init : backend_state -> vorbis_block;
  block_clear : vorbis_block -> vorbis_block;

  (* the sample at (channel, frame) of the area vorbis_analysis_buffer
     exposes, and that area written back *)
  pcm_peek : backend_state -> nat -> nat -> float;
  pcm_poke : backend_state -> list (list float) -> backend_state;
  analysis_wrote : backend_state -> Z -> backend_state;

  analysis_blockout :
    backend_state -> vorbis_block -> Z * backend_state * vorbis_block;
  analysis : vorbis_block -> vorbis_block;
  bitrate_addblock :
    backend_state -> vorbis_block -> backend_state * vorbis_block;
  bitrate_flushpacket : backend_state -> Z * packet_data * backend_state;
  analysis_headerout :
    backend_state -> vorbis_comment ->
    backend_state * (packet_data * packet_data * packet_data);

  blocks_left : backend_state -> nat;
  packets_left : backend_state -> nat;

  blockout_takes_block : forall b vb r b' vb',
    analysis_blockout b vb = (r, b', vb') -> r = 1 ->
    (blocks_left b' < blocks_left b)%nat;
  addblock_keeps_blocks : forall b vb,
    (blocks_left (fst (bitrate_addblock b vb)) <= blocks_left b)%nat;
  flushpacket_keeps_blocks : forall b,
    (blocks_left (snd (bitrate_flushpacket b)) <= blocks_left b)%nat;
  flushpacket_takes_packet : forall b r p b',
    bitrate_flushpacket b = (r, p, b') -> r <> 0 ->
    (packets_left b' < packets_left b)%nat
}.

Section Library.
Context {LO : Libogg} {LV : Libvorbis}.

(** [vorbis_info] (codec.h): the public fields the plugin sets through
    the library, and the setup. *)
Record vorbis_info : Type := mk_vorbis_info {
  vi_channels : Z;
  vi_rate : Z;
  vi_codec_setup : option codec_setup
}.

(** [vorbis_dsp_state] (codec.h): the [vorbis_info] it was initialised
    from, the end-of-stream marker, and the private state. *)
Record vorbis_dsp_state : Type := mk_vorbis_dsp_state {
  vd_vi : vorbis_info;
  eofflag : bool;
  vd_backend : backend_state
}.

Definition with_backend (vd : vorbis_dsp_state) (b : backend_state)
  : vorbis_dsp_state :=
  {| vd_vi := vd_vi vd; eofflag := eofflag vd; vd_backend := b |}.

Definition vorbis_info_init : vorbis_info :=
  {| vi_channels := 0; vi_rate := 0; vi_codec_setup := None |}.

Definition vorbis_info_clear (vi : vorbis_info) : vorbis_info :=
  {| vi_channels := 0; vi_rate := 0; vi_codec_setup := None |}.

(** A negative error code; the plugin only tests the result against 0. *)
Definition OV_EINVAL : Z := -131.

(** [vorbis_encode_init_vbr]: 0 and the info set up, or an error code and
    the info cleared. *)
Definition vorbis_encode_init_vbr (vi : vorbis_info) (channels rate : Z)
    (base_quality : float) : Z * vorbis_info :=
  match encode_setup_vbr channels rate base_quality with
  | Some cs =>
      (0, {| vi_channels := channels; vi_rate := rate;
             vi_codec_setup := Some cs |})
  | None => (OV_EINVAL, vorbis_info_clear vi)
  end.

Definition vorbis_encode_init (vi : vorbis_info) (channels rate : Z)
    (max_bitrate nominal_bitrate min_bitrate : Z) : Z * vorbis_info :=
  match encode_setup_managed channels rate
          max_bitrate nominal_bitrate min_bitrate with
  | Some cs =>
      (0, {| vi_channels := channels; vi_rate := rate;
             vi_codec_setup := Some cs |})
  | None => (OV_EINVAL, vorbis_info_clear vi)
  end.

(** [vorbis_analysis_init]: a fresh state for [vi], not at end of stream. *)
Definition vorbis_analysis_init (vi : vorbis_info) : vorbis_dsp_state :=
  {| vd_vi := vi; eofflag := false;
     vd_backend := analysis_init (vi_channels vi) (vi_rate vi)
                     (vi_codec_setup vi) |}.

(** [vorbis_dsp_clear]: the private state released and the structure
    zeroed (no info behind it any more). *)
Definition vorbis_dsp_clear (vd : vorbis_dsp_state) : vorbis_dsp_state :=
  {| vd_vi := vorbis_info_clear (vd_vi vd); eofflag := false;
     vd_backend := dsp_clear (vd_backend vd) |}.

Definition vorbis_block_init (vd : vorbis_dsp_state) : vorbis_block :=
  block_init (vd_backend vd).

Definition vorbis_block_clear (vb : vorbis_block) : vorbis_block :=
  block_clear vb.

(** [vorbis_analysis_buffer(vd, vals)]: one buffer per channel of the
    info, each with room for [vals] samples. *)
Definition vorbis_analysis_buffer (vd : vorbis_dsp_state) (vals : Z)
  : list (list float) :=
  map (fun j => map (fun i => pcm_peek (vd_backend vd) j i)
                    (seq 0 (Z.to_nat vals)))
      (seq 0 (Z.to_nat (vi_channels (vd_vi vd)))).

(** The buffers of [vorbis_analysis_buffer] are storage of [vd]: what
    the caller wrote into them is in [vd]. *)
Definition vorbis_analysis_buffer_written (vd : vorbis_dsp_state)
    (buffer : list (list float)) : vorbis_dsp_state :=
  with_backend vd (pcm_poke (vd_backend vd) buffer).

(** [vorbis_analysis_wrote(vd, vals)]: [vals] samples per channel were
    written; [vals <= 0] marks the end of the stream. *)
Definition vorbis_analysis_wrote (vd : vorbis_dsp_state) (vals : Z)
  : vorbis_dsp_state :=
  {| vd_vi := vd_vi vd;
     eofflag := if vals <=? 0 then true else eofflag vd;
     vd_backend := analysis_wrote (vd_backend vd) vals |}.

Definition vorbis_analysis_blockout (vd : vorbis_dsp_state) (vb : vorbis_block)
  : Z * vorbis_dsp_state * vorbis_block :=
  let '(r, b, vb') := analysis_blockout (vd_backend vd) vb in
  (r, with_backend vd b, vb').

Definition vorbis_analysis (vb : vorbis_block) : vorbis_block := analysis vb.

(** [vorbis_bitrate_addblock(&vb)] reaches the state through [vb->vd]. *)
Definition vorbis_bitrate_addblock (vd : vorbis_dsp_state) (vb : vorbis_block)
  : vorbis_dsp_state * vorbis_block :=
  let '(b, vb') := bitrate_addblock (vd_backend vd) vb in
  (with_backend vd b, vb').

(** [vorbis_bitrate_flushpacket(&vd, &packet)]: non-zero with an audio
    packet, or 0. *)
Definition vorbis_bitrate_flushpacket (vd : vorbis_dsp_state)
  : Z * ogg_packet packet_data * vorbis_dsp_state :=
  let '(r, p, b) := bitrate_flushpacket (vd_backend vd) in
  (r, mk_packet Audio p, with_backend vd b).

(** [vorbis_analysis_headerout]: the identification, comment and setup
    (codebook) header packets. *)
Definition vorbis_analysis_headerout (vd : vorbis_dsp_state)
    (vc : vorbis_comment)
  : vorbis_dsp_state *
    (ogg_packet packet_data * ogg_packet packet_data * ogg_packet packet_data) :=
  let '(b, (op, op_comm, op_code)) := analysis_headerout (vd_backend vd) vc in
  (with_backend vd b,
   (mk_packet Identification op, mk_packet Comments op_comm,
    mk_packet Setup op_code)).

End Library.

(** ** Tags (Tag.hxx) *)

(** The enumeration of tag types and the table [tag_item_names] are
    declared outside the plugin. *)
Class TagNames : Type := {
  tag_type : Type;
  tag_item_names : tag_type -> string
}.

Section Encoder.
Context {LO : Libogg} {LV : Libvorbis} {TN : TagNames}.

Record TagItem : Type := mk_TagItem {
  type : tag_type;
  value : string
}.

(** [Tag]: [items[0 .. num_items-1]]. *)
Definition Tag : Type := list TagItem.

(** ** The encoder *)

(** [struct vorbis_encoder] (the [Encoder] base class apart).  The field
    [audio_format] is [encoder_audio_format] here, its name being the
    type's. *)
Record vorbis_encoder : Type := mk_vorbis_encoder {
  (* configuration *)
  quality : float;
  bitrate : Z;
  (* runtime information *)
  encoder_audio_format : audio_format;
  vd : vorbis_dsp_state;
  vb : vorbis_block;
  vi : vorbis_info;
  stream : OggStream
}.

Definition set_quality (e : vorbis_encoder) (q : float) : vorbis_encoder :=
  mk_vorbis_encoder q (bitrate e) (encoder_audio_format e)
    (vd e) (vb e) (vi e) (stream e).
Definition set_bitrate (e : vorbis_encoder) (b : Z) : vorbis_encoder :=
  mk_vorbis_encoder (quality e) b (encoder_audio_format e)
    (vd e) (vb e) (vi e) (stream e).
Definition set_audio_format (e : vorbis_encoder) (af : audio_format)
  : vorbis_encoder :=
  mk_vorbis_encoder (quality e) (bitrate e) af (vd e) (vb e) (vi e) (stream e).
Definition set_vd (e : vorbis_encoder) (d : vorbis_dsp_state) : vorbis_encoder :=
  mk_vorbis_encoder (quality e) (bitrate e) (encoder_audio_format e)
    d (vb e) (vi e) (stream e).
Definition set_vb (e : vorbis_encoder) (b : vorbis_block) : vorbis_encoder :=
  mk_vorbis_encoder (quality e) (bitrate e) (encoder_audio_format e)
    (vd e) b (vi e) (stream e).
Definition set_vi (e : vorbis_encoder) (i : vorbis_info) : vorbis_encoder :=
  mk_vorbis_encoder (quality e) (bitrate e) (encoder_audio_format e)
    (vd e) (vb e) i (stream e).
Definition set_stream (e : vorbis_encoder) (s : OggStream) : vorbis_encoder :=
  mk_vorbis_encoder (quality e) (bitrate e) (encoder_audio_format e)
    (vd e) (vb e) (vi e) s.

(** The [double] literals of the plugin. *)
Definition c_minus_1 : double := double_of_decimal true 1 0.    (* -1.0 *)
Definition c_minus_2 : double := double_of_decimal true 2 0.    (* -2.0 *)
Definition c_10 : double := double_of_decimal false 10 0.       (* 10.0 *)
Definition c_0_1 : double := double_of_decimal false 1 (-1).    (* 0.1 *)

(** [*endptr != '\0'] *)
Definition not_at_end (endptr : string) : bool :=
  match endptr with
  | EmptyString => false
  | String _ _ => true
  end.

(** [vorbis_encoder_configure]: the value returned, the error set, and
    the encoder. *)
Definition vorbis_encoder_configure (encoder : vorbis_encoder)
    (param : config_param) : bool * option GError * vorbis_encoder :=
  match config_get_block_string param "quality" with
  | Some value =>
      (* a quality was configured (VBR) *)
      let '(d, endptr) := g_ascii_strtod value in
      let encoder := set_quality encoder (float_of_double d) in
      if not_at_end endptr
         || dltb (double_of_float (quality encoder)) c_minus_1
         || dltb c_10 (double_of_float (quality encoder))
      then (false, Some (quality_not_a_number_in_range value (line param)),
            encoder)
      else
        match config_get_block_string param "bitrate" with
        | Some _ =>
            (false, Some (quality_and_bitrate_both_defined (line param)),
             encoder)
        | None => (true, None, encoder)
        end
  | None =>
      (* a bit rate was configured *)
      match config_get_block_string param "bitrate" with
      | None =>
          (false, Some (neither_bitrate_nor_quality_defined (line param)),
           encoder)
      | Some value =>
          let encoder := set_quality encoder (float_of_double c_minus_2) in
          let '(v, endptr) := g_ascii_strtoll value in
          let encoder := set_bitrate encoder (to_int v) in
          if not_at_end endptr || (bitrate encoder <=? 0)
          then (false, Some (bitrate_should_be_positive (line param)), encoder)
          else (true, None, encoder)
      end
  end.

(** [vorbis_encoder_init]: [fresh] is the object [new vorbis_encoder()]
    gives, whose fields are not initialised; the result is the encoder, or
    [nullptr] and the error. *)
Definition vorbis_encoder_init (fresh : vorbis_encoder) (param : config_param)
  : option vorbis_encoder * option GError :=
  let '(ok, error, encoder) := vorbis_encoder_configure fresh param in
  if ok then (Some encoder, error) else (None, error).

(** [vorbis_encoder_reinit]; [serialno] is what [g_random_int()] returns. *)
Definition vorbis_encoder_reinit (encoder : vorbis_encoder) (serialno : Z)
  : bool * option GError * vorbis_encoder :=
  let encoder := set_vi encoder vorbis_info_init in
  let af := encoder_audio_format encoder in
  let '(r, error, vi') :=
    if dleb c_minus_1 (double_of_float (quality encoder)) then
      (* a quality was configured (VBR) *)
      let '(r, vi') :=
        vorbis_encode_init_vbr (vi encoder) (channels af) (sample_rate af)
          (float_of_double (dmul (double_of_float (quality encoder)) c_0_1)) in
      (r, error_initializing_vorbis_vbr, vi')
    else
      (* a bit rate was configured *)
      let '(r, vi') :=
        vorbis_encode_init (vi encoder) (channels af) (sample_rate af)
          (-1) (to_int (bitrate encoder * 1000)) (-1) in
          (* an int product: beyond INT_MAX it overflows, which C leaves
             undefined; the wrap of two's complement stands for it here *)
      (r, error_initializing_vorbis_encoder, vi') in
  if negb (r =? 0) then
    (false, Some error, set_vi encoder (vorbis_info_clear vi'))
  else
    let encoder := set_vi encoder vi' in
    let encoder := set_vd encoder (vorbis_analysis_init (vi encoder)) in
    let encoder := set_vb encoder (vorbis_block_init (vd encoder)) in
    let encoder :=
      set_stream encoder (OggStream_call (stream encoder) (Initialize serialno)) in
    (true, None, encoder).

Definition vorbis_encoder_headerout (encoder : vorbis_encoder)
    (vc : vorbis_comment) : vorbis_encoder :=
  let '(vd', (packet, comments, codebooks)) :=
    vorbis_analysis_headerout (vd encoder) vc in
  let encoder := set_vd encoder vd' in
  let encoder :=
    set_stream encoder (OggStream_call (stream encoder) (PacketIn packet)) in
  let encoder :=
    set_stream encoder (OggStream_call (stream encoder) (PacketIn comments)) in
  set_stream encoder (OggStream_call (stream encoder) (PacketIn codebooks)).

Definition vorbis_encoder_send_header (encoder : vorbis_encoder)
  : vorbis_encoder :=
  let vc := vorbis_comment_init in
  vorbis_encoder_headerout encoder vc.

(** [vorbis_encoder_open]: the value returned, the error, the encoder and
    the caller's [*audio_format]. *)
Definition vorbis_encoder_open (encoder : vorbis_encoder)
    (af : audio_format) (serialno : Z)
  : bool * option GError * vorbis_encoder * audio_format :=
  let af :=
    {| sample_rate := sample_rate af; format := SAMPLE_FORMAT_FLOAT;
       channels := channels af |} in
  let encoder := set_audio_format encoder af in
  let '(ok, error, encoder) := vorbis_encoder_reinit encoder serialno in
  if negb ok then (false, error, encoder, af)
  else (true, None, vorbis_encoder_send_header encoder, af).

Definition vorbis_encoder_clear (encoder : vorbis_encoder) : vorbis_encoder :=
  let encoder :=
    set_stream encoder (OggStream_call (stream encoder) Deinitialize) in
  let encoder := set_vb encoder (vorbis_block_clear (vb encoder)) in
  let encoder := set_vd encoder (vorbis_dsp_clear (vd encoder)) in
  set_vi encoder (vorbis_info_clear (vi encoder)).

Definition vorbis_encoder_close (encoder : vorbis_encoder) : vorbis_encoder :=
  vorbis_encoder_clear encoder.

(** The inner loop of [vorbis_encoder_blockout]:
    [while (vorbis_bitrate_flushpacket(&vd, &packet)) stream.PacketIn(packet);]
    run for at most [fuel] turns. *)
Fixpoint flushpacket_loop (fuel : nat) (encoder : vorbis_encoder)
  : vorbis_encoder :=
  match fuel with
  | O => encoder
  | S fuel' =>
      let '(r, packet, vd') := vorbis_bitrate_flushpacket (vd encoder) in
      let encoder := set_vd encoder vd' in
      if r =? 0 then encoder
      else
        flushpacket_loop fuel'
          (set_stream encoder
             (OggStream_call (stream encoder) (PacketIn packet)))
  end.

Definition flushpackets (encoder : vorbis_encoder) : vorbis_encoder :=
  flushpacket_loop (S (packets_left (vd_backend (vd encoder)))) encoder.

(** The body of the outer loop, for a block handed out. *)
Definition blockout_body (encoder : vorbis_encoder) : vorbis_encoder :=
  let encoder := set_vb encoder (vorbis_analysis (vb encoder)) in
  let '(vd', vb') := vorbis_bitrate_addblock (vd encoder) (vb encoder) in
  let encoder := set_vb (set_vd encoder vd') vb' in
  flushpackets encoder.

(** The outer loop:
    [while (vorbis_analysis_blockout(&vd, &vb) == 1) { ... }]
    run for at most [fuel] turns. *)
Fixpoint blockout_loop (fuel : nat) (encoder : vorbis_encoder)
  : vorbis_encoder :=
  match fuel with
  | O => encoder
  | S fuel' =>
      let '(r, vd', vb') :=
        vorbis_analysis_blockout (vd encoder) (vb encoder) in
      let encoder := set_vb (set_vd encoder vd') vb' in
      if r =? 1 then blockout_loop fuel' (blockout_body encoder)
      else encoder
  end.

(** [vorbis_encoder_blockout]: both loops run until the library ends
    them; the measures of [Libvorbis] bound their turns (see
    [vorbis_encoder_blockout_eq] and [flushpackets_eq]). *)
Definition vorbis_encoder_blockout (encoder : vorbis_encoder)
  : vorbis_encoder :=
  blockout_loop (S (blocks_left (vd_backend (vd encoder)))) encoder.

Definition vorbis_encoder_flush (encoder : vorbis_encoder)
  : bool * vorbis_encoder :=
  let encoder := set_stream encoder (OggStream_call (stream encoder) Flush) in
  (true, encoder).

Definition vorbis_encoder_pre_tag (encoder : vorbis_encoder)
  : bool * vorbis_encoder :=
  let encoder := set_vd encoder (vorbis_analysis_wrote (vd encoder) 0) in
  let encoder := vorbis_encoder_blockout encoder in
  (* reinitialize vorbis_dsp_state and vorbis_block to reset the
     end-of-stream marker *)
  let encoder := set_vb encoder (vorbis_block_clear (vb encoder)) in
  let encoder := set_vd encoder (vorbis_dsp_clear (vd encoder)) in
  let encoder := set_vd encoder (vorbis_analysis_init (vi encoder)) in
  let encoder := set_vb encoder (vorbis_block_init (vd encoder)) in
  let encoder := set_stream encoder (OggStream_call (stream encoder) Flush) in
  (true, encoder).

(** [copy_tag_to_vorbis_comment]: the items in order, each name of the
    table upper-cased. *)
Fixpoint copy_tag_to_vorbis_comment (vc : vorbis_comment) (tag : Tag)
  : vorbis_comment :=
  match tag with
  | [] => vc
  | item :: tag' =>
      let name := g_ascii_strup (tag_item_names (type item)) in
      copy_tag_to_vorbis_comment
        (vorbis_comment_add_tag vc name (value item)) tag'
  end.

(** [vorbis_encoder_tag]; [serialno] is what [g_random_int()] returns. *)
Definition vorbis_encoder_tag (encoder : vorbis_encoder) (tag : Tag)
    (serialno : Z) : bool * vorbis_encoder :=
  (* write the vorbis_comment object *)
  let comment := vorbis_comment_init in
  let comment := copy_tag_to_vorbis_comment comment tag in
  (* reset ogg_stream_state and begin a new stream *)
  let encoder :=
    set_stream encoder
      (OggStream_call (stream encoder) (Reinitialize serialno)) in
  (* send that vorbis_comment to the ogg_stream_state *)
  let encoder := vorbis_encoder_headerout encoder comment in
  (true, encoder).

(** The inner loop of [interleaved_to_vorbis_buffer] at frame [i], from
    channel [j] for [n] more channels: [dest[j][i] = *src++].  [src] is
    what is left of the source buffer; [None] is an access outside [src]
    or outside [dest]. *)
Fixpoint interleave_frame (dest : list (list float)) (src : list float)
    (i j n : nat) {struct n} : option (list (list float) * list float) :=
  match n with
  | O => Some (dest, src)
  | S n' =>
      match src, dest !! j with
      | x :: src', Some row =>
          if decide (i < length row)%nat
          then interleave_frame (<[j := <[i := x]> row]> dest) src' i (S j) n'
          else None
      | _, _ => None
      end
  end.

(** The outer loop, from frame [i] for [n] more frames. *)
Fixpoint interleave_frames (dest : list (list float)) (src : list float)
    (i n : nat) (num_channels : nat) {struct n}
  : option (list (list float)) :=
  match n with
  | O => Some dest
  | S n' =>
      match interleave_frame dest src i 0 num_channels with
      | Some (dest', src') => interleave_frames dest' src' (S i) n' num_channels
      | None => None
      end
  end.

(** [dest[j][i]], where there is such a cell. *)
Definition cell (dest : list (list float)) (j i : nat) : option float :=
  match dest !! j with
  | Some row => row !! i
  | None => None
  end.

(** Every one of the first [nc] buffers of [dest] has room for [m]
    samples. *)
Definition roomy (dest : list (list float)) (nc m : nat) : Prop :=
  (nc <= length dest)%nat /\
  forall k row, (k < nc)%nat -> dest !! k = Some row -> (m <= length row)%nat.

Definition interleaved_to_vorbis_buffer (dest : list (list float))
    (src : list float) (num_frames num_channels : Z)
  : option (list (list float)) :=
  interleave_frames dest src 0 (Z.to_nat num_frames) (Z.to_nat num_channels).

(** [num_frames] of [vorbis_encoder_write]:
    [unsigned num_frames = length / audio_format_frame_size(...)];
    [None] is the division by zero. *)
Definition write_num_frames (encoder : vorbis_encoder) (length : Z)
  : option Z :=
  let frame_size := audio_format_frame_size (encoder_audio_format encoder) in
  if frame_size =? 0 then None
  else Some (to_unsigned (length / frame_size)).

(** [vorbis_encoder_write]: [data] is the source buffer as the [float]s
    it holds and [length] its size in bytes ([size_t]).  [None] is
    undefined behaviour: a division by zero or an access outside a
    buffer. *)
Definition vorbis_encoder_write (encoder : vorbis_encoder)
    (data : list float) (length : Z) : option (bool * vorbis_encoder) :=
  match write_num_frames encoder length with
  | None => None
  | Some num_frames =>
      let buffer := vorbis_analysis_buffer (vd encoder) (to_int num_frames) in
      match interleaved_to_vorbis_buffer buffer data num_frames
              (channels (encoder_audio_format encoder)) with
      | None => None
      | Some buffer' =>
          let encoder :=
            set_vd encoder
              (vorbis_analysis_buffer_written (vd encoder) buffer') in
          let encoder :=
            set_vd encoder
              (vorbis_analysis_wrote (vd encoder) (to_int num_frames)) in
          let encoder := vorbis_encoder_blockout encoder in
          Some (true, encoder)
      end
  end.

(** [vorbis_encoder_read]: the bytes copied, and the encoder. *)
Definition vorbis_encoder_read (encoder : vorbis_encoder) (length : Z)
  : Z * vorbis_encoder :=
  (page_bytes (stream encoder) length,
   set_stream encoder (OggStream_call (stream encoder) (PageOut length))).

Definition vorbis_encoder_get_mime_type : string := "audio/ogg".

(** ** Sessions *)

(** The operations of the plugin on an open encoder, with their inputs
    (the spec's write, flush, preTag, updateTag and read). *)
Inductive encoder_op : Type :=
  | op_write (data : list float) (length : Z)
  | op_flush
  | op_pre_tag
  | op_tag (tag : Tag) (serialno : Z)
  | op_read (length : Z).

Definition apply_op (encoder : vorbis_encoder) (op : encoder_op)
  : option vorbis_encoder :=
  match op with
  | op_write data length =>
      match vorbis_encoder_write encoder data length with
      | Some (_, encoder') => Some encoder'
      | None => None
      end
  | op_flush => Some (snd (vorbis_encoder_flush encoder))
  | op_pre_tag => Some (snd (vorbis_encoder_pre_tag encoder))
  | op_tag tag serialno => Some (snd (vorbis_encoder_tag encoder tag serialno))
  | op_read length => Some (snd (vorbis_encoder_read encoder length))
  end.

Fixpoint run (ops : list encoder_op) (encoder : vorbis_encoder)
  : option vorbis_encoder :=
  match ops with
  | [] => Some encoder
  | op :: ops' =>
      match apply_op encoder op with
      | Some encoder' => run ops' encoder'
      | None => None
      end
  end.

Definition is_tag (op : encoder_op) : bool :=
  match op with
  | op_tag _ _ => true
  | _ => false
  end.

(** The number of updateTag events of a sequence. *)
Definition count_tags (ops : list encoder_op) : nat :=
  length (List.filter is_tag ops).

(** The number of updateTag events of a sequence, run from the identifier
    [cur], whose number drawn differs from the identifier then in
    force. *)
Fixpoint count_changing_tags (cur : option Z) (ops : list encoder_op) : nat :=
  match ops with
  | [] => 0%nat
  | op_tag _ serialno :: ops' =>
      (serialno_change cur serialno
       + count_changing_tags (Some serialno) ops')%nat
  | _ :: ops' => count_changing_tags cur ops'
  end.

(** An open session: [vorbis_encoder_open] stored a valid format with
    float samples, the info was set up for its channel count, and the
    codec state is one for that info. *)
Definition session_open (encoder : vorbis_encoder) : Prop :=
  audio_format_valid (encoder_audio_format encoder) /\
  format (encoder_audio_format encoder) = SAMPLE_FORMAT_FLOAT /\
  vi_channels (vi encoder) = channels (encoder_audio_format encoder) /\
  vd_vi (vd encoder) = vi encoder.

(** The caller's side of [vorbis_encoder_write]: [data] holds [length]
    bytes, and the frame count fits the [int] libvorbis takes. *)
Definition write_input_ok (encoder : vorbis_encoder) (data : list float)
    (length : Z) : Prop :=
  0 <= length /\
  length / 4 <= Z.of_nat (List.length data) /\
  to_unsigned (length / audio_format_frame_size (encoder_audio_format encoder))
    <= INT_MAX.

(** A sequence of operations all of whose writes keep the caller's
    side. *)
Definition ops_input_ok (encoder : vorbis_encoder) (ops : list encoder_op)
  : Prop :=
  Forall (fun op => match op with
                    | op_write data length => write_input_ok encoder data length
                    | _ => True
                    end) ops.

(** ** The order of packets in the container stream *)

(** Where a logical stream stands: none begun, [n] of its three header
    packets submitted, or all three. *)
Inductive stream_phase : Type :=
  | NoStream
  | Headers (n : nat)
  | Streaming.

(** One call, checked against the ordering rule: a logical stream begins
    only where none is half-way through its headers; the headers come as
    identification, comments, setup; an audio packet comes only after all
    three. *)
Definition phase_step (ph : stream_phase) (c : stream_call packet_data)
  : option stream_phase :=
  match c, ph with
  | (Initialize _ | Reinitialize _), (NoStream | Streaming) => Some (Headers 0)
  | PacketIn p, Headers 0 =>
      match kind p with Identification => Some (Headers 1) | _ => None end
  | PacketIn p, Headers 1 =>
      match kind p with Comments => Some (Headers 2) | _ => None end
  | PacketIn p, Headers 2 =>
      match kind p with Setup => Some Streaming | _ => None end
  | PacketIn p, Streaming =>
      match kind p with Audio => Some Streaming | _ => None end
  | (Flush | PageOut _), _ => Some ph
  | Deinitialize, (NoStream | Streaming) => Some NoStream
  | _, _ => None
  end.

Fixpoint phase_after (ph : stream_phase) (s : OggStream)
  : option stream_phase :=
  match s with
  | [] => Some ph
  | c :: s' =>
      match phase_step ph c with
      | Some ph' => phase_after ph' s'
      | None => None
      end
  end.

(** A call that leaves a logical stream past its headers where it is:
    an audio packet, a flush or a read. *)
Definition keeps_streaming (c : stream_call packet_data) : bool :=
  match c with
  | PacketIn p => match kind p with Audio => true | _ => false end
  | Flush | PageOut _ => true
  | _ => false
  end.

(** The comment fields of a tag. *)
Definition comment_fields (tag : Tag) : vorbis_comment :=
  map (fun item => (g_ascii_strup (tag_item_names (type item)), value item)) tag.

(** ** What the drain loops do *)

(** What a drain leaves alone: everything but the private state of [vd],
    the block and the stream. *)
Definition same_outside_codec (e e' : vorbis_encoder) : Prop :=
  quality e' = quality e /\ bitrate e' = bitrate e /\
  encoder_audio_format e' = encoder_audio_format e /\
  vi e' = vi e /\ vd_vi (vd e') = vd_vi (vd e) /\
  eofflag (vd e') = eofflag (vd e).

(** The calls of a stretch of history all submit audio packets. *)
Definition audio_packets (l : OggStream) : Prop :=
  Forall (fun c => exists p, c = PacketIn p /\ kind p = Audio) l.

(** The stream grew by audio packets only. *)
Definition audio_appended (e e' : vorbis_encoder) : Prop :=
  exists l, stream e' = stream e ++ l /\ audio_packets l.

(** The run of the outer loop, as a relation: from [e], blocks are taken
    and their packets submitted until [vorbis_analysis_blockout] reports
    that no block is left. *)
Inductive drained : vorbis_encoder -> vorbis_encoder -> Prop :=
  | drained_done e r vd' vb' :
      vorbis_analysis_blockout (vd e) (vb e) = (r, vd', vb') ->
      r <> 1 ->
      drained e (set_vb (set_vd e vd') vb')
  | drained_block e vd' vb' e' :
      vorbis_analysis_blockout (vd e) (vb e) = (1, vd', vb') ->
      drained (blockout_body (set_vb (set_vd e vd') vb')) e' ->
      drained e e'.

(** The same in terms of the library alone.  The packets libvorbis hands
    out from the state [vd0], in order, until
    [vorbis_bitrate_flushpacket] returns 0, and the state then. *)
Inductive packets_flushed
  : vorbis_dsp_state -> list (ogg_packet packet_data) -> vorbis_dsp_state
    -> Prop :=
  | packets_flushed_none vd0 packet vd1 :
      vorbis_bitrate_flushpacket vd0 = (0, packet, vd1) ->
      packets_flushed vd0 [] vd1
  | packets_flushed_packet vd0 r packet vd1 packets vd2 :
      vorbis_bitrate_flushpacket vd0 = (r, packet, vd1) -> r <> 0 ->
      packets_flushed vd1 packets vd2 ->
      packets_flushed vd0 (packet :: packets) vd2.

(** The packets libvorbis hands out from the state [vd0] and the block
    [vb0] until it is empty: as long as [vorbis_analysis_blockout] gives a
    block, the block is analysed and added to the bitrate management and
    all the packets then waiting are taken; the state and the block when
    [vorbis_analysis_blockout] gives no further block. *)
Inductive blocks_drained
  : vorbis_dsp_state -> vorbis_block -> list (ogg_packet packet_data)
    -> vorbis_dsp_state -> vorbis_block -> Prop :=
  | blocks_drained_none vd0 vb0 r vd1 vb1 :
      vorbis_analysis_blockout vd0 vb0 = (r, vd1, vb1) -> r <> 1 ->
      blocks_drained vd0 vb0 [] vd1 vb1
  | blocks_drained_block vd0 vb0 vd1 vb1 vd2 vb2 packets vd3 packets' vd4 vb4 :
      vorbis_analysis_blockout vd0 vb0 = (1, vd1, vb1) ->
      vorbis_bitrate_addblock vd1 (vorbis_analysis vb1) = (vd2, vb2) ->
      packets_flushed vd2 packets vd3 ->
      blocks_drained vd3 vb2 packets' vd4 vb4 ->
      blocks_drained vd0 vb0 (packets ++ packets') vd4 vb4.

(** ** Configuration *)

(** The test [vorbis_encoder_configure] puts the quality string to,
    turned round: [g_ascii_strtod] stopped at the end of the string, and
    the value, kept as [float], is not less than -1 and not greater than
    10.  It is the test of the source, not the reading that the string is
    a number within [-1, 10]: the empty string, [nan] and [10.0000001]
    pass it (see [quality_strings]). *)
Definition quality_test_passes (value : string) : bool :=
  let '(d, endptr) := g_ascii_strtod value in
  let q := double_of_float (float_of_double d) in
  negb (not_at_end endptr) && negb (dltb q c_minus_1) && negb (dltb c_10 q).

(** The result of configuration by the error names of the spec. *)
Definition configure_error (result : bool * option GError * vorbis_encoder)
  : option ConfigError :=
  match result with
  | (_, Some e, _) => config_error_of e
  | (_, None, _) => None
  end.

(** The planar buffers read back in the order of the source: for each
    of [num_frames] frames, the cell of each of [num_channels] channels. *)
Definition vorbis_buffer_to_interleaved (buffer : list (list float))
    (num_frames num_channels : Z) : list (option float) :=
  flat_map (fun i => map (fun j => cell buffer j i)
                         (seq 0 (Z.to_nat num_channels)))
           (seq 0 (Z.to_nat num_frames)).

End Encoder.

(** ** A small instance of the libraries

    A stand-in for libogg and libvorbis that can be run: the state
    counts the frames written and the packets waiting, a block is four
    frames and gives one packet, and the payload of a packet is its
    packet-type byte (1, 3, 5 for the headers, 0 for audio).  It serves
    to evaluate the encoder on concrete inputs. *)
Module Reference.

Definition ogg : Libogg :=
  {| packet_data := Z; page_bytes := fun _ _ => 0 |}.

Record backend : Type := mk_backend {
  frames : nat;
  queued : nat
}.

Definition setup_supported (channels rate : Z) : option unit :=
  if (1 <=? channels) && (channels <=? 255) && (0 <? rate)
  then Some tt else None.

Definition ref_blockout (b : backend) (vb : unit) : Z * backend * unit :=
  if (4 <=? frames b)%nat
  then (1, mk_backend (frames b - 4) (queued b), vb)
  else (0, b, vb).

Definition ref_flushpacket (b : backend) : Z * Z * backend :=
  match queued b with
  | O => (0, 0, b)
  | S q => (1, 0, mk_backend (frames b) q)
  end.

(** At the end of the stream the last partial block is padded to a full
    one. *)
Definition ref_wrote (b : backend) (vals : Z) : backend :=
  if vals <=? 0
  then mk_backend (4 * ((frames b + 3) / 4)) (queued b)
  else mk_backend (frames b + Z.to_nat vals) (queued b).

Definition vorbis : @Libvorbis ogg.
Proof.
  refine
    (@Build_Libvorbis ogg
       (* codec_setup, backend_state, vorbis_block *)
       unit backend unit
       (* encode_setup_vbr, encode_setup_managed *)
       (fun channels rate _ => setup_supported channels rate)
       (fun channels rate _ _ _ => setup_supported channels rate)
       (* analysis_init, dsp_clear, block_init, block_clear *)
       (fun _ _ _ => mk_backend 0 0) (fun _ => mk_backend 0 0)
       (fun _ => tt) (fun _ => tt)
       (* pcm_peek, pcm_poke, analysis_wrote *)
       (fun _ _ _ => S754_zero false) (fun b _ => b) ref_wrote
       (* analysis_blockout, analysis, bitrate_addblock *)
       ref_blockout (fun vb => vb)
       (fun b vb => (mk_backend (frames b) (S (queued b)), vb))
       (* bitrate_flushpacket, analysis_headerout *)
       ref_flushpacket (fun b _ => (b, (1, 3, 5)))
       (* blocks_left, packets_left and their laws *)
       frames queued _ _ _ _).
  - intros b vb r b' vb'. unfold ref_blockout.
    destruct (Nat.leb_spec 4 (frames b)); intros [= <- <- <-]; cbn; lia.
  - intros b vb. cbn. lia.
  - intros b. unfold ref_flushpacket. destruct (queued b); cbn; lia.
  - intros b r p b'. unfold ref_flushpacket.
    destruct (queued b); intros [= <- <- <-]; cbn; lia.
Defined.

Inductive tag_id : Type := TAG_ARTIST | TAG_TITLE.

Definition tags : TagNames :=
  {| tag_type := tag_id;
     tag_item_names := fun t =>
       match t with
       | TAG_ARTIST => "Artist"%string
       | TAG_TITLE => "Title"%string
       end |}.

#[local] Existing Instances ogg vorbis tags.

(** An encoder as [new vorbis_encoder()] leaves it: nothing configured,
    no call made to the stream. *)
Definition fresh : vorbis_encoder :=
  {| quality := S754_zero false; bitrate := 0;
     encoder_audio_format := mk_audio_format 0 SAMPLE_FORMAT_UNDEFINED 0;
     vd := mk_vorbis_dsp_state vorbis_info_init false (mk_backend 0 0);
     vb := tt; vi := vorbis_info_init; stream := [] |}.

Definition params (l : list (string * string)) : config_param :=
  {| line := 1; block_params := l |}.

(** 44100 Hz, 16 bit, stereo, as a caller hands it to open. *)
Definition cd_audio : audio_format := mk_audio_format 44100 SAMPLE_FORMAT_S16 2.

(** 44100 Hz mono. *)
Definition mono_audio : audio_format := mk_audio_format 44100 SAMPLE_FORMAT_S16 1.

(** The encoder configured with quality 5.0. *)
Definition configured : vorbis_encoder :=
  snd (vorbis_encoder_configure fresh (params [("quality", "5.0")]))%string.

(** The session opened on [cd_audio] with serial number 7. *)
Definition opened : vorbis_encoder :=
  snd (fst (vorbis_encoder_open configured cd_audio 7)).

(** The session opened on [mono_audio] with serial number 7. *)
Definition opened_mono : vorbis_encoder :=
  snd (fst (vorbis_encoder_open configured mono_audio 7)).

Definition sample (n : Z) : float := float_of_double (double_of_Z n).

(** Eight stereo frames: the samples 0, 1, ..., 15 interleaved. *)
Definition eight_frames : list float := map (fun n => sample (Z.of_nat n)) (seq 0 16).

Definition a_tag : Tag :=
  [mk_TagItem TAG_ARTIST "Bach"; mk_TagItem TAG_TITLE "Air"]%string.

(** A run of operations: eight frames, a tag change, a read, four
    frames and three bytes more, a flush. *)
Definition a_session : list encoder_op :=
  [op_write eight_frames 64; op_pre_tag; op_tag a_tag 9; op_read 4096;
   op_write eight_frames 35; op_flush].

Definition after_session : vorbis_encoder :=
  match run a_session opened with
  | Some encoder => encoder
  | None => opened
  end.

(** The open session after a write of no data, which marks the end of
    the stream. *)
Definition at_end_of_stream : vorbis_encoder :=
  match vorbis_encoder_write opened [] 0 with
  | Some (_, encoder) => encoder
  | None => opened
  end.

End Reference.

End Vorbis.

(* ===================================================================== *)
(** * Properties *)
(* ===================================================================== *)

Import CNum Glib Winmm Vorbis.

(** ** The Winmm volume conversion *)

(** C10.  For every volume from 0 to 100, decoding the encoded volume
    gives the volume back, and the encoded value is a 32-bit value with
    the same 16 bits in its low and its high half. *)
Theorem winmm_volume_roundtrip v :
  0 <= v <= 100 ->
  winmm_volume_decode (winmm_volume_encode v) = v /\
  LOWORD (winmm_volume_encode v) = HIWORD (winmm_volume_encode v) /\
  0 <= winmm_volume_encode v < 2 ^ 32.
Proof.
  intros Hv.
  assert (forallb volume_roundtrips (map Z.of_nat (seq 0 101)) = true) as Hall
    by (vm_compute; reflexivity).
  rewrite forallb_forall in Hall.
  assert (In v (map Z.of_nat (seq 0 101))) as Hin.
  { apply in_map_iff. exists (Z.to_nat v). split; [lia|]. apply in_seq. lia. }
  specialize (Hall v Hin). unfold volume_roundtrips in Hall.
  apply andb_prop in Hall as [Hall H4]. apply andb_prop in Hall as [Hall H3].
  apply andb_prop in Hall as [H1 H2].
  apply Z.eqb_eq in H1, H2. apply Z.leb_le in H3. apply Z.ltb_lt in H4.
  done.
Qed.

Lemma winmm_volume_roundtrip_witness :
  0 <= 37 <= 100 /\
  winmm_volume_decode (winmm_volume_encode 37) = 37 /\
  LOWORD (winmm_volume_encode 37) = HIWORD (winmm_volume_encode 37) /\
  0 <= winmm_volume_encode 37 < 2 ^ 32.
Proof. split; [lia | apply (winmm_volume_roundtrip 37); lia]. Defined.

(** ** The encoder *)

(* ===================================================================== *)
(** ** Properties of the drain loops *)
(* ===================================================================== *)

Arguments vorbis_encoder_blockout : simpl never.
Arguments flushpackets : simpl never.

Section Drain.
Context {LO : Libogg} {LV : Libvorbis} {TN : TagNames}.

Lemma same_outside_codec_refl e : same_outside_codec e e.
Proof. repeat split. Qed.

Lemma same_outside_codec_trans e1 e2 e3 :
  same_outside_codec e1 e2 -> same_outside_codec e2 e3 ->
  same_outside_codec e1 e3.
Proof. unfold same_outside_codec. intuition congruence. Qed.

Lemma audio_appended_same e e' : stream e' = stream e -> audio_appended e e'.
Proof. intros E. exists []. split; [by rewrite app_nil_r | constructor]. Qed.

Lemma audio_appended_refl e : audio_appended e e.
Proof. by apply audio_appended_same. Qed.

Lemma audio_appended_trans e1 e2 e3 :
  audio_appended e1 e2 -> audio_appended e2 e3 -> audio_appended e1 e3.
Proof.
  intros (l1 & E1 & A1) (l2 & E2 & A2). exists (l1 ++ l2). split.
  - by rewrite E2, E1, app_assoc.
  - by apply Forall_app.
Qed.

(** *** The inner loop *)

(** One turn of the inner loop, as the source has it. *)
Lemma flushpacket_loop_S fuel e :
  flushpacket_loop (S fuel) e =
  let '(r, packet, vd') := vorbis_bitrate_flushpacket (vd e) in
  if r =? 0 then set_vd e vd'
  else flushpacket_loop fuel
         (set_stream (set_vd e vd')
            (OggStream_call (stream e) (PacketIn packet))).
Proof. cbn [flushpacket_loop]. by destruct (vorbis_bitrate_flushpacket (vd e)) as [[r p] vd']. Qed.

Lemma flushpacket_measure e r p vd' :
  vorbis_bitrate_flushpacket (vd e) = (r, p, vd') -> r <> 0 ->
  (packets_left (vd_backend vd') < packets_left (vd_backend (vd e)))%nat.
Proof.
  unfold vorbis_bitrate_flushpacket.
  destruct (bitrate_flushpacket (vd_backend (vd e))) as [[r0 p0] b] eqn:E.
  intros [= <- <- <-] Hr. cbn. eapply flushpacket_takes_packet; eauto.
Qed.

(** Fuel beyond the measure changes nothing. *)
Lemma flushpacket_loop_fuel f1 : forall f2 e,
  (packets_left (vd_backend (vd e)) < f1)%nat ->
  (packets_left (vd_backend (vd e)) < f2)%nat ->
  flushpacket_loop f1 e = flushpacket_loop f2 e.
Proof.
  induction f1 as [|f1 IH]; intros f2 e H1 H2; [lia|].
  destruct f2 as [|f2]; [lia|].
  rewrite !flushpacket_loop_S.
  destruct (vorbis_bitrate_flushpacket (vd e)) as [[r p] vd'] eqn:E.
  destruct (Z.eqb_spec r 0) as [|Hr]; [done|].
  pose proof (flushpacket_measure _ _ _ _ E Hr).
  apply IH; cbn; lia.
Qed.

(** The inner loop is the [while] of the source: it stops exactly when
    [vorbis_bitrate_flushpacket] returns 0. *)
Lemma flushpackets_eq e :
  flushpackets e =
  let '(r, packet, vd') := vorbis_bitrate_flushpacket (vd e) in
  if r =? 0 then set_vd e vd'
  else flushpackets
         (set_stream (set_vd e vd')
            (OggStream_call (stream e) (PacketIn packet))).
Proof.
  unfold flushpackets at 1. rewrite flushpacket_loop_S.
  destruct (vorbis_bitrate_flushpacket (vd e)) as [[r p] vd'] eqn:E.
  destruct (Z.eqb_spec r 0) as [|Hr]; [done|].
  pose proof (flushpacket_measure _ _ _ _ E Hr).
  apply flushpacket_loop_fuel; cbn; lia.
Qed.

Lemma flushpacket_kind e :
  kind (snd (fst (vorbis_bitrate_flushpacket (vd e)))) = Audio /\
  vd_vi (snd (vorbis_bitrate_flushpacket (vd e))) = vd_vi (vd e) /\
  eofflag (snd (vorbis_bitrate_flushpacket (vd e))) = eofflag (vd e) /\
  (blocks_left (vd_backend (snd (vorbis_bitrate_flushpacket (vd e))))
   <= blocks_left (vd_backend (vd e)))%nat.
Proof.
  unfold vorbis_bitrate_flushpacket.
  pose proof (flushpacket_keeps_blocks (vd_backend (vd e))) as Hb.
  destruct (bitrate_flushpacket (vd_backend (vd e))) as [[r p] b]. by cbn in *.
Qed.

Lemma flushpacket_loop_inv fuel : forall e,
  same_outside_codec e (flushpacket_loop fuel e) /\
  audio_appended e (flushpacket_loop fuel e) /\
  vb (flushpacket_loop fuel e) = vb e /\
  (blocks_left (vd_backend (vd (flushpacket_loop fuel e)))
   <= blocks_left (vd_backend (vd e)))%nat.
Proof.
  induction fuel as [|fuel IH]; intros e.
  - cbn. split; [apply same_outside_codec_refl|].
    split; [apply audio_appended_refl | done].
  - rewrite flushpacket_loop_S.
    pose proof (flushpacket_kind e) as (Hk & Hvi & Heof & Hbl).
    destruct (vorbis_bitrate_flushpacket (vd e)) as [[r p] vd']. cbn in *.
    destruct (r =? 0).
    + split; [by repeat split|]. split; [by apply audio_appended_same | done].
    + specialize (IH (set_stream (set_vd e vd')
                        (OggStream_call (stream e) (PacketIn p)))).
      destruct IH as (S1 & (l & El & Al) & V1 & B1). cbn in *.
      split; [|split; [|split]].
      * unfold same_outside_codec in *. cbn in *. intuition congruence.
      * exists (PacketIn p :: l). split.
        -- rewrite El. unfold OggStream_call. by rewrite <- app_assoc.
        -- constructor; eauto.
      * done.
      * lia.
Qed.

(** *** The outer loop *)

Lemma blockout_body_inv e :
  same_outside_codec e (blockout_body e) /\
  audio_appended e (blockout_body e) /\
  (blocks_left (vd_backend (vd (blockout_body e)))
   <= blocks_left (vd_backend (vd e)))%nat.
Proof.
  unfold blockout_body, vorbis_bitrate_addblock, flushpackets.
  pose proof (addblock_keeps_blocks (vd_backend (vd e)) (vorbis_analysis (vb e))) as Ha.
  cbn [vd vb set_vb].
  destruct (bitrate_addblock (vd_backend (vd e)) (vorbis_analysis (vb e)))
    as [b vb'] eqn:E. cbn in Ha.
  match goal with |- context [flushpacket_loop ?f ?x] =>
    destruct (flushpacket_loop_inv f x) as (S1 & A1 & _ & B1) end.
  cbn in *. split; [|split].
  - unfold same_outside_codec in *. cbn in *. intuition congruence.
  - destruct A1 as (l & El & Al). by exists l.
  - lia.
Qed.

Lemma blockout_loop_S fuel e :
  blockout_loop (S fuel) e =
  let '(r, vd', vb') := vorbis_analysis_blockout (vd e) (vb e) in
  if r =? 1
  then blockout_loop fuel (blockout_body (set_vb (set_vd e vd') vb'))
  else set_vb (set_vd e vd') vb'.
Proof. cbn [blockout_loop]. by destruct (vorbis_analysis_blockout (vd e) (vb e)) as [[r vd'] vb']. Qed.

Lemma blockout_measure e r vd' vb' :
  vorbis_analysis_blockout (vd e) (vb e) = (r, vd', vb') ->
  vd_vi vd' = vd_vi (vd e) /\ eofflag vd' = eofflag (vd e) /\
  (r = 1 ->
   (blocks_left (vd_backend vd') < blocks_left (vd_backend (vd e)))%nat).
Proof.
  unfold vorbis_analysis_blockout.
  destruct (analysis_blockout (vd_backend (vd e)) (vb e)) as [[r0 b] vb0] eqn:E.
  intros [= <- <- <-]. cbn. repeat split.
  intros Hr. eapply blockout_takes_block; eauto.
Qed.

Lemma blockout_loop_fuel f1 : forall f2 e,
  (blocks_left (vd_backend (vd e)) < f1)%nat ->
  (blocks_left (vd_backend (vd e)) < f2)%nat ->
  blockout_loop f1 e = blockout_loop f2 e.
Proof.
  induction f1 as [|f1 IH]; intros f2 e H1 H2; [lia|].
  destruct f2 as [|f2]; [lia|].
  rewrite !blockout_loop_S.
  destruct (vorbis_analysis_blockout (vd e) (vb e)) as [[r vd'] vb'] eqn:E.
  destruct (Z.eqb_spec r 1) as [Hr|]; [|done].
  destruct (blockout_measure _ _ _ _ E) as (_ & _ & Hm). specialize (Hm Hr).
  destruct (blockout_body_inv (set_vb (set_vd e vd') vb')) as (_ & _ & Hb).
  cbn in Hb. apply IH; lia.
Qed.

(** The outer loop is the [while] of the source: it stops exactly when
    [vorbis_analysis_blockout] returns something other than 1. *)
Lemma vorbis_encoder_blockout_eq e :
  vorbis_encoder_blockout e =
  let '(r, vd', vb') := vorbis_analysis_blockout (vd e) (vb e) in
  if r =? 1
  then vorbis_encoder_blockout (blockout_body (set_vb (set_vd e vd') vb'))
  else set_vb (set_vd e vd') vb'.
Proof.
  unfold vorbis_encoder_blockout at 1. rewrite blockout_loop_S.
  destruct (vorbis_analysis_blockout (vd e) (vb e)) as [[r vd'] vb'] eqn:E.
  destruct (Z.eqb_spec r 1) as [Hr|]; [|done].
  destruct (blockout_measure _ _ _ _ E) as (_ & _ & Hm). specialize (Hm Hr).
  destruct (blockout_body_inv (set_vb (set_vd e vd') vb')) as (_ & _ & Hb).
  cbn in Hb. apply blockout_loop_fuel; lia.
Qed.

Lemma blockout_loop_inv fuel : forall e,
  same_outside_codec e (blockout_loop fuel e) /\
  audio_appended e (blockout_loop fuel e).
Proof.
  induction fuel as [|fuel IH]; intros e.
  - cbn. split; [apply same_outside_codec_refl | apply audio_appended_refl].
  - rewrite blockout_loop_S.
    destruct (vorbis_analysis_blockout (vd e) (vb e)) as [[r vd'] vb'] eqn:E.
    destruct (blockout_measure _ _ _ _ E) as (Hvi & Heof & _).
    assert (same_outside_codec e (set_vb (set_vd e vd') vb')) as S0
      by (by repeat split).
    assert (audio_appended e (set_vb (set_vd e vd') vb')) as A0
      by (by apply audio_appended_same).
    destruct (r =? 1); [|done].
    destruct (blockout_body_inv (set_vb (set_vd e vd') vb')) as (S1 & A1 & _).
    destruct (IH (blockout_body (set_vb (set_vd e vd') vb'))) as (S2 & A2).
    split.
    + eauto using same_outside_codec_trans.
    + eauto using audio_appended_trans.
Qed.

Lemma vorbis_encoder_blockout_inv e :
  same_outside_codec e (vorbis_encoder_blockout e) /\
  audio_appended e (vorbis_encoder_blockout e).
Proof. apply blockout_loop_inv. Qed.

Lemma blockout_loop_drained fuel : forall e,
  (blocks_left (vd_backend (vd e)) < fuel)%nat ->
  drained e (blockout_loop fuel e).
Proof.
  induction fuel as [|fuel IH]; intros e Hf; [lia|].
  rewrite blockout_loop_S.
  destruct (vorbis_analysis_blockout (vd e) (vb e)) as [[r vd'] vb'] eqn:E.
  destruct (Z.eqb_spec r 1) as [Hr|Hr].
  - subst r. eapply drained_block; [exact E|].
    destruct (blockout_measure _ _ _ _ E) as (_ & _ & Hm).
    destruct (blockout_body_inv (set_vb (set_vd e vd') vb')) as (_ & _ & Hb).
    cbn in Hb. apply IH. specialize (Hm eq_refl). lia.
  - by eapply drained_done.
Qed.

Lemma vorbis_encoder_blockout_drained e :
  drained e (vorbis_encoder_blockout e).
Proof. apply blockout_loop_drained. lia. Qed.

(** *** The drain in terms of the library *)

(** The packets handed out are audio packets. *)
Lemma packets_flushed_audio vd0 packets vd1 :
  packets_flushed vd0 packets vd1 -> Forall (fun p => kind p = Audio) packets.
Proof.
  induction 1 as [|vd0 r packet vd1 packets vd2 E Hr _ IH]; [constructor|].
  constructor; [|exact IH].
  unfold vorbis_bitrate_flushpacket in E.
  destruct (bitrate_flushpacket (vd_backend vd0)) as [[r0 p0] b].
  by injection E as _ <- _.
Qed.

Lemma blocks_drained_audio vd0 vb0 packets vd1 vb1 :
  blocks_drained vd0 vb0 packets vd1 vb1 ->
  Forall (fun p => kind p = Audio) packets.
Proof.
  induction 1 as [|? ? ? ? ? ? ? ? ? ? ? _ _ Hf _ IH]; [constructor|].
  apply Forall_app. split; [by eapply packets_flushed_audio | exact IH].
Qed.

(** The library is a function of its state: there is one list of packets
    to hand out. *)
Lemma packets_flushed_unique vd0 packets vd1 :
  packets_flushed vd0 packets vd1 ->
  forall packets' vd1', packets_flushed vd0 packets' vd1' ->
  packets' = packets /\ vd1' = vd1.
Proof.
  induction 1 as [vd0 packet vd1 E|vd0 r packet vd1 packets vd2 E Hr _ IH];
    intros packets' vd1' H'; inversion H' as [? ? ? E'|? ? ? ? ? ? E' Hr' Hrest];
    subst; rewrite E in E'.
  - by injection E' as _ <-.
  - injection E' as <- _ _. done.
  - injection E' as -> _ _. done.
  - injection E' as _ <- <-. destruct (IH _ _ Hrest) as [-> ->]. done.
Qed.

Lemma blocks_drained_unique vd0 vb0 packets vd1 vb1 :
  blocks_drained vd0 vb0 packets vd1 vb1 ->
  forall packets' vd1' vb1', blocks_drained vd0 vb0 packets' vd1' vb1' ->
  packets' = packets /\ vd1' = vd1 /\ vb1' = vb1.
Proof.
  induction 1 as [vd0 vb0 r vd1 vb1 E Hr
                 |vd0 vb0 vd1 vb1 vd2 vb2 packets vd3 packets2 vd4 vb4
                    E Ea Hf _ IH];
    intros packets' vd1' vb1' H';
    inversion H' as [? ? ? ? ? E' Hr'
                    |? ? ? ? ? ? ? ? ? ? ? E' Ea' Hf' Hrest];
    subst; rewrite E in E'.
  - by injection E' as _ <- <-.
  - injection E' as -> _ _. done.
  - injection E' as <- _ _. done.
  - injection E' as <- <-. rewrite Ea in Ea'. injection Ea' as <- <-.
    destruct (packets_flushed_unique _ _ _ Hf _ _ Hf') as [-> ->].
    destruct (IH _ _ _ Hrest) as (-> & -> & ->). done.
Qed.

(** The inner loop submits the packets the library hands out, all of
    them and in order, and nothing else. *)
Lemma flushpacket_loop_flushed fuel : forall e,
  (packets_left (vd_backend (vd e)) < fuel)%nat ->
  exists packets vd',
    packets_flushed (vd e) packets vd' /\
    flushpacket_loop fuel e
    = set_stream (set_vd e vd') (stream e ++ map PacketIn packets).
Proof.
  induction fuel as [|fuel IH]; intros e Hf; [lia|].
  rewrite flushpacket_loop_S.
  destruct (vorbis_bitrate_flushpacket (vd e)) as [[r p] vd1] eqn:E.
  destruct (Z.eqb_spec r 0) as [Hr|Hr].
  - subst r. exists [], vd1. split; [by eapply packets_flushed_none|].
    unfold set_stream, set_vd. cbn. by rewrite app_nil_r.
  - pose proof (flushpacket_measure _ _ _ _ E Hr) as Hm.
    destruct (IH (set_stream (set_vd e vd1)
                    (OggStream_call (stream e) (PacketIn p))))
      as (packets & vd' & Hp & ->); [cbn; lia|].
    exists (p :: packets), vd'. split.
    + eapply packets_flushed_packet; [exact E | exact Hr | exact Hp].
    + unfold set_stream, set_vd, OggStream_call. cbn.
      by rewrite <- app_assoc.
Qed.

Lemma flushpackets_flushed e :
  exists packets vd',
    packets_flushed (vd e) packets vd' /\
    flushpackets e
    = set_stream (set_vd e vd') (stream e ++ map PacketIn packets).
Proof. apply flushpacket_loop_flushed. lia. Qed.

(** The outer loop submits the packets of every block the library hands
    out, and nothing else. *)
Lemma blockout_loop_blocks_drained fuel : forall e,
  (blocks_left (vd_backend (vd e)) < fuel)%nat ->
  exists packets vd' vb',
    blocks_drained (vd e) (vb e) packets vd' vb' /\
    blockout_loop fuel e
    = set_stream (set_vb (set_vd e vd') vb')
        (stream e ++ map PacketIn packets).
Proof.
  induction fuel as [|fuel IH]; intros e Hf; [lia|].
  rewrite blockout_loop_S.
  destruct (vorbis_analysis_blockout (vd e) (vb e)) as [[r vd1] vb1] eqn:E.
  destruct (Z.eqb_spec r 1) as [Hr|Hr].
  - subst r.
    destruct (blockout_measure _ _ _ _ E) as (_ & _ & Hm).
    specialize (Hm eq_refl).
    pose proof (blockout_body_inv (set_vb (set_vd e vd1) vb1)) as (_ & _ & Hb).
    cbn in Hb.
    destruct (IH (blockout_body (set_vb (set_vd e vd1) vb1)))
      as (packets' & vd4 & vb4 & Hd & ->); [lia|].
    unfold blockout_body in Hd |- *. cbn [vd vb set_vb set_vd] in Hd |- *.
    destruct (vorbis_bitrate_addblock vd1 (vorbis_analysis vb1))
      as [vd2 vb2] eqn:Ea.
    match goal with |- context [flushpackets ?x] =>
      destruct (flushpackets_flushed x) as (packets & vd3 & Hp & Ef) end.
    rewrite Ef in Hd |- *.
    cbn [vd vb stream set_vb set_vd set_stream] in Hd, Hp |- *.
    exists (packets ++ packets'), vd4, vb4. split.
    + eapply blocks_drained_block; [exact E | exact Ea | exact Hp | exact Hd].
    + rewrite map_app, app_assoc. destruct e. reflexivity.
  - exists [], vd1, vb1. split; [by eapply blocks_drained_none|].
    rewrite app_nil_r. destruct e. reflexivity.
Qed.

Lemma vorbis_encoder_blockout_blocks_drained e :
  exists packets vd' vb',
    blocks_drained (vd e) (vb e) packets vd' vb' /\
    vorbis_encoder_blockout e
    = set_stream (set_vb (set_vd e vd') vb')
        (stream e ++ map PacketIn packets).
Proof. apply blockout_loop_blocks_drained. lia. Qed.

End Drain.

(* ===================================================================== *)
(** ** Properties of the de-interleaving *)
(* ===================================================================== *)

Section Interleave.
Context {LO : Libogg} {LV : Libvorbis} {TN : TagNames}.

Lemma cell_insert_eq (dest : list (list float)) row j i x :
  dest !! j = Some row -> (i < length row)%nat ->
  cell (<[j := <[i := x]> row]> dest) j i = Some x.
Proof.
  intros Hj Hi. unfold cell.
  rewrite list_lookup_insert_eq by (by eapply lookup_lt_Some).
  by rewrite list_lookup_insert_eq.
Qed.

Lemma cell_insert_ne (dest : list (list float)) row j i x k i' :
  dest !! j = Some row -> ~ (k = j /\ i' = i) ->
  cell (<[j := <[i := x]> row]> dest) k i' = cell dest k i'.
Proof.
  intros Hj Hne. unfold cell.
  destruct (decide (k = j)) as [->|Hk].
  - rewrite list_lookup_insert_eq by (by eapply lookup_lt_Some).
    rewrite Hj. apply list_lookup_insert_ne. intros ->. by apply Hne.
  - by rewrite list_lookup_insert_ne.
Qed.

Lemma roomy_insert (dest : list (list float)) row j i x nc m :
  dest !! j = Some row -> roomy dest nc m ->
  roomy (<[j := <[i := x]> row]> dest) nc m.
Proof.
  intros Hj [Hl Hr]. split; [by rewrite length_insert|].
  intros k row' Hk Hrow'.
  destruct (decide (k = j)) as [->|Hne].
  - rewrite list_lookup_insert_eq in Hrow' by (by eapply lookup_lt_Some).
    injection Hrow' as <-. rewrite length_insert. eauto.
  - rewrite list_lookup_insert_ne in Hrow' by done. eauto.
Qed.

(** One frame: the channels [j .. j+n-1] of frame [i] receive the next
    [n] samples of the source, in order, and nothing else changes. *)
Lemma interleave_frame_spec n : forall dest src i j nc m,
  roomy dest nc m -> (i < m)%nat -> (j + n <= nc)%nat ->
  (n <= length src)%nat ->
  exists dest',
    interleave_frame dest src i j n = Some (dest', drop n src) /\
    roomy dest' nc m /\
    (forall k, (j <= k < j + n)%nat -> cell dest' k i = src !! (k - j)%nat) /\
    (forall k i', ~ ((j <= k < j + n)%nat /\ i' = i) ->
                  cell dest' k i' = cell dest k i').
Proof.
  induction n as [|n IH]; intros dest src i j nc m Hroomy Hi Hj Hsrc.
  - exists dest. cbn. repeat split; try apply Hroomy; intros; try lia; done.
  - destruct src as [|x src]; [cbn in Hsrc; lia|].
    destruct Hroomy as [Hlen Hrows].
    destruct (lookup_lt_is_Some_2 dest j) as [row Hrow]; [lia|].
    pose proof (Hrows j row ltac:(lia) Hrow) as Hroom.
    cbn [interleave_frame]. rewrite Hrow.
    destruct (decide (i < length row)%nat) as [_|]; [|lia].
    destruct (IH (<[j := <[i := x]> row]> dest) src i (S j) nc m)
      as (dest' & Eq & Hroomy' & Hnew & Hold);
      [by apply roomy_insert | lia | lia | cbn in Hsrc; lia |].
    exists dest'. split; [exact Eq|]. split; [exact Hroomy'|]. split.
    + intros k Hk. destruct (decide (k = j)) as [->|Hne].
      * rewrite Hold by lia. rewrite Nat.sub_diag. cbn.
        apply cell_insert_eq; [done | lia].
      * rewrite Hnew by lia.
        replace (k - j)%nat with (S (k - S j)) by lia. done.
    + intros k i' Hne. rewrite Hold by lia.
      apply cell_insert_ne; [done | lia].
Qed.

(** All frames: frame [i + f] of channel [k] receives the sample
    [f * nc + k] of the source. *)
Lemma interleave_frames_spec n : forall dest src i nc m,
  roomy dest nc m -> (i + n <= m)%nat -> (n * nc <= length src)%nat ->
  exists dest',
    interleave_frames dest src i n nc = Some dest' /\
    roomy dest' nc m /\
    (forall f k, (f < n)%nat -> (k < nc)%nat ->
                 cell dest' k (i + f) = src !! (f * nc + k)%nat) /\
    (forall k i', ~ ((k < nc)%nat /\ (i <= i' < i + n)%nat) ->
                  cell dest' k i' = cell dest k i').
Proof.
  induction n as [|n IH]; intros dest src i nc m Hroomy Hi Hsrc.
  - exists dest. cbn. repeat split; try apply Hroomy; intros; try lia; done.
  - cbn [interleave_frames].
    destruct (interleave_frame_spec nc dest src i 0 nc m)
      as (dest1 & Eq1 & Hroomy1 & Hnew1 & Hold1); [done | lia | lia | lia |].
    rewrite Eq1.
    destruct (IH dest1 (drop nc src) (S i) nc m)
      as (dest' & Eq & Hroomy' & Hnew & Hold);
      [done | lia | rewrite length_drop; lia |].
    exists dest'. split; [exact Eq|]. split; [exact Hroomy'|]. split.
    + intros f k Hf Hk. destruct f as [|f].
      * rewrite Nat.add_0_r. rewrite Hold by lia. rewrite Hnew1 by lia.
        f_equal. lia.
      * replace (i + S f)%nat with (S i + f)%nat by lia.
        rewrite Hnew by lia. rewrite lookup_drop. f_equal. lia.
    + intros k i' Hne. rewrite Hold by lia. apply Hold1. lia.
Qed.

End Interleave.

(* ===================================================================== *)
(** ** Properties of the stream history *)
(* ===================================================================== *)

Section History.
Context {LO : Libogg} {LV : Libvorbis} {TN : TagNames}.

Lemma phase_after_app s1 : forall ph s2,
  phase_after ph (s1 ++ s2) =
  match phase_after ph s1 with
  | Some ph' => phase_after ph' s2
  | None => None
  end.
Proof.
  induction s1 as [|c s1 IH]; intros ph s2; cbn; [done|].
  destruct (phase_step ph c); [apply IH | done].
Qed.

Lemma last_serialno_app s1 : forall cur s2,
  last_serialno cur (s1 ++ s2) = last_serialno (last_serialno cur s1) s2.
Proof.
  induction s1 as [|c s1 IH]; intros cur s2; cbn; [done|].
  destruct c; apply IH.
Qed.

Lemma serialno_assignments_app (s1 s2 : OggStream) :
  serialno_assignments (s1 ++ s2) = (serialno_assignments s1 + serialno_assignments s2)%nat.
Proof. unfold serialno_assignments. by rewrite List.filter_app, length_app. Qed.

Lemma keeps_streaming_audio (l : OggStream) :
  audio_packets l -> Forall (fun c => keeps_streaming c = true) l.
Proof.
  intros Ha. eapply Forall_impl; [exact Ha|].
  intros c (p & -> & Hk). cbn. by rewrite Hk.
Qed.

Lemma keeps_streaming_phase (l : OggStream) :
  Forall (fun c => keeps_streaming c = true) l ->
  phase_after Streaming l = Some Streaming.
Proof.
  induction 1 as [|c l Hc _ IH]; cbn; [done|].
  destruct c as [| | | |p|]; try discriminate; cbn; try exact IH.
  cbn in Hc. destruct (kind p); try discriminate. exact IH.
Qed.

Lemma keeps_streaming_serialno (l : OggStream) :
  Forall (fun c => keeps_streaming c = true) l ->
  serialno_assignments l = 0%nat /\ forall cur, last_serialno cur l = cur.
Proof.
  induction 1 as [|c l Hc _ [IH1 IH2]]; [done|].
  destruct c as [| | | |p|]; try discriminate; split; try intros cur; cbn;
    try apply IH2; exact IH1.
Qed.

Lemma serialno_changes_from_app (s1 : OggStream) : forall cur (s2 : OggStream),
  serialno_changes_from cur (s1 ++ s2)
  = (serialno_changes_from cur s1
     + serialno_changes_from (last_serialno cur s1) s2)%nat.
Proof.
  induction s1 as [|c s1 IH]; intros cur s2; [done|].
  destruct c; cbn; rewrite IH; lia.
Qed.

Lemma keeps_streaming_serialno_changes (l : OggStream) :
  Forall (fun c => keeps_streaming c = true) l ->
  forall cur, serialno_changes_from cur l = 0%nat.
Proof.
  induction 1 as [|c l Hc _ IH]; intros cur; [done|].
  destruct c as [| | | |p|]; try discriminate; cbn; apply IH.
Qed.

Lemma serialno_change_le cur n : (serialno_change cur n <= 1)%nat.
Proof. destruct cur as [m|]; cbn; [destruct (m =? n)|]; lia. Qed.

(** An assignment is no change exactly when it gives the identifier in
    force. *)
Lemma serialno_change_0 cur n : serialno_change cur n = 0%nat <-> cur = Some n.
Proof.
  destruct cur as [m|]; cbn; [|done].
  destruct (Z.eqb_spec m n) as [->|Hne]; split; try done.
  intros [= ->]. done.
Qed.

(** *** What each function appends to the history *)

Lemma copy_tag_to_vorbis_comment_fields tag : forall vc,
  copy_tag_to_vorbis_comment vc tag = vc ++ comment_fields tag.
Proof.
  induction tag as [|item tag IH]; intros vc; cbn.
  - by rewrite app_nil_r.
  - rewrite IH. unfold vorbis_comment_add_tag. by rewrite <- app_assoc.
Qed.

Lemma vorbis_encoder_headerout_spec e vc :
  exists vd' op op_comm op_code,
    vorbis_analysis_headerout (vd e) vc = (vd', (op, op_comm, op_code)) /\
    kind op = Identification /\ kind op_comm = Comments /\
    kind op_code = Setup /\
    vd_vi vd' = vd_vi (vd e) /\ eofflag vd' = eofflag (vd e) /\
    vorbis_encoder_headerout e vc =
      mk_vorbis_encoder (quality e) (bitrate e) (encoder_audio_format e)
        vd' (vb e) (vi e)
        (stream e ++ [PacketIn op; PacketIn op_comm; PacketIn op_code]).
Proof.
  unfold vorbis_encoder_headerout, vorbis_analysis_headerout.
  destruct (analysis_headerout (vd_backend (vd e)) vc) as [b [[a c] d]].
  eexists _, _, _, _. split; [reflexivity|]. cbn.
  repeat split. unfold OggStream_call. by rewrite <- !app_assoc.
Qed.

Lemma vorbis_encoder_tag_spec e tag serialno :
  exists vd' op op_comm op_code,
    vorbis_analysis_headerout (vd e) (comment_fields tag)
      = (vd', (op, op_comm, op_code)) /\
    kind op = Identification /\ kind op_comm = Comments /\
    kind op_code = Setup /\
    vd_vi vd' = vd_vi (vd e) /\ eofflag vd' = eofflag (vd e) /\
    vorbis_encoder_tag e tag serialno =
      (true,
       mk_vorbis_encoder (quality e) (bitrate e) (encoder_audio_format e)
         vd' (vb e) (vi e)
         (stream e ++ [Reinitialize serialno; PacketIn op; PacketIn op_comm;
                       PacketIn op_code])).
Proof.
  unfold vorbis_encoder_tag.
  rewrite copy_tag_to_vorbis_comment_fields. cbn [vorbis_comment_init app].
  match goal with |- context [vorbis_encoder_headerout ?x ?vc] =>
    destruct (vorbis_encoder_headerout_spec x vc)
      as (vd' & a & b & c & E & Ka & Kb & Kc & Hvi & Heof & Eq) end.
  cbn in E, Hvi, Heof. exists vd', a, b, c. rewrite Eq. cbn.
  repeat split; try done. unfold OggStream_call. by rewrite <- app_assoc.
Qed.

Lemma vorbis_encoder_pre_tag_spec e :
  let e1 := set_vd e (vorbis_analysis_wrote (vd e) 0) in
  let e2 := vorbis_encoder_blockout e1 in
  vorbis_encoder_pre_tag e =
    (true,
     mk_vorbis_encoder (quality e2) (bitrate e2) (encoder_audio_format e2)
       (vorbis_analysis_init (vi e2))
       (vorbis_block_init (vorbis_analysis_init (vi e2)))
       (vi e2) (stream e2 ++ [Flush])).
Proof. reflexivity. Qed.

Lemma vorbis_analysis_buffer_roomy vd vals :
  roomy (vorbis_analysis_buffer vd vals)
    (Z.to_nat (vi_channels (vd_vi vd))) (Z.to_nat vals).
Proof.
  unfold vorbis_analysis_buffer. split.
  - by rewrite length_map, length_seq.
  - intros k row Hk. rewrite list_lookup_fmap.
    destruct (seq 0 (Z.to_nat (vi_channels (vd_vi vd))) !! k); [|done].
    cbn. intros [= <-]. by rewrite length_map, length_seq.
Qed.

(** *** Open sessions *)

Lemma session_open_same e e' :
  same_outside_codec e e' -> session_open e -> session_open e'.
Proof.
  unfold same_outside_codec, session_open.
  intros (_ & _ & -> & -> & -> & _). done.
Qed.

Lemma to_int_small z : 0 <= z <= INT_MAX -> to_int z = z.
Proof.
  unfold to_int, INT_MAX. intros Hz.
  rewrite Z.mod_small by lia. lia.
Qed.

Lemma to_unsigned_range z : 0 <= to_unsigned z < 2 ^ 32.
Proof. unfold to_unsigned. apply Z.mod_pos_bound. lia. Qed.

Lemma frame_size_open e :
  session_open e ->
  audio_format_frame_size (encoder_audio_format e)
    = 4 * channels (encoder_audio_format e) /\
  1 <= channels (encoder_audio_format e).
Proof.
  intros ((Hc & _) & Hf & _). unfold audio_format_frame_size.
  rewrite Hf. cbn [sample_format_size]. lia.
Qed.

(** With its caller's side kept, [vorbis_encoder_write] is defined, and
    the samples of each frame go to the buffers of the channels. *)
Lemma vorbis_encoder_write_spec e data length :
  session_open e -> write_input_ok e data length ->
  let af := encoder_audio_format e in
  let nf := to_unsigned (length / audio_format_frame_size af) in
  exists buffer',
    write_num_frames e length = Some nf /\
    interleaved_to_vorbis_buffer (vorbis_analysis_buffer (vd e) nf) data nf
      (channels af) = Some buffer' /\
    roomy buffer' (Z.to_nat (channels af)) (Z.to_nat nf) /\
    (forall frame channel, (frame < Z.to_nat nf)%nat ->
       (channel < Z.to_nat (channels af))%nat ->
       (frame * Z.to_nat (channels af) + channel < List.length data)%nat /\
       cell buffer' channel frame
         = data !! (frame * Z.to_nat (channels af) + channel)%nat) /\
    vorbis_encoder_write e data length =
      Some (true,
            vorbis_encoder_blockout
              (set_vd e
                 (vorbis_analysis_wrote
                    (vorbis_analysis_buffer_written (vd e) buffer') nf))).
Proof.
  intros Hopen (Hlen & Hdata & Hint) af nf.
  destruct (frame_size_open e Hopen) as [Hfs Hch].
  fold af in Hfs, Hch, Hint. fold nf in Hint.
  pose proof (to_unsigned_range (length / audio_format_frame_size af)) as Hnf.
  fold nf in Hnf.
  assert (write_num_frames e length = Some nf) as Enf.
  { unfold write_num_frames. fold af.
    destruct (Z.eqb_spec (audio_format_frame_size af) 0); [lia | done]. }
  assert (nf * channels af <= length / 4) as Hfit.
  { assert (nf <= length / audio_format_frame_size af) as Hle.
    { unfold nf, to_unsigned. apply Z.mod_le; [|lia].
      apply Z.div_pos; lia. }
    rewrite Hfs in Hle.
    transitivity (length / (4 * channels af) * channels af); [nia|].
    rewrite <- Z.div_div by lia.
    rewrite Z.mul_comm. apply Z.mul_div_le. lia. }
  destruct Hopen as (_ & _ & Hvi & Hvd).
  pose proof (vorbis_analysis_buffer_roomy (vd e) nf) as Hroomy.
  rewrite Hvd, Hvi in Hroomy. fold af in Hroomy.
  destruct (interleave_frames_spec (Z.to_nat nf)
              (vorbis_analysis_buffer (vd e) nf) data 0
              (Z.to_nat (channels af)) (Z.to_nat nf))
    as (buffer' & Eq & Hroomy' & Hnew & _); [done | lia | nia |].
  exists buffer'. split; [exact Enf|].
  assert (interleaved_to_vorbis_buffer (vorbis_analysis_buffer (vd e) nf)
            data nf (channels af) = Some buffer') as Eq' by exact Eq.
  split; [exact Eq'|]. split; [exact Hroomy'|]. split.
  - intros frame channel Hf Hc. split; [nia|].
    by rewrite <- Hnew.
  - unfold vorbis_encoder_write. rewrite Enf. fold af.
    rewrite to_int_small by lia. by rewrite Eq'.
Qed.


(** Whenever [vorbis_encoder_write] returns, it returns [true], having
    submitted audio packets only. *)
Lemma vorbis_encoder_write_inv e data length r e' :
  vorbis_encoder_write e data length = Some (r, e') ->
  r = true /\ audio_appended e e' /\
  encoder_audio_format e' = encoder_audio_format e /\
  vi e' = vi e /\ vd_vi (vd e') = vd_vi (vd e).
Proof.
  unfold vorbis_encoder_write.
  destruct (write_num_frames e length) as [nf|]; [|done].
  destruct (interleaved_to_vorbis_buffer _ _ _ _) as [buffer'|]; [|done].
  intros [= <- <-]. split; [done|].
  match goal with |- context [vorbis_encoder_blockout ?x] =>
    destruct (vorbis_encoder_blockout_inv x)
      as ((_ & _ & Haf & Hvi & Hvd & _) & (l & El & Al)) end.
  cbn in *. split; [by exists l | done].
Qed.

Lemma vorbis_encoder_reinit_true e serialno error e' :
  vorbis_encoder_reinit e serialno = (true, error, e') ->
  error = None /\
  stream e' = stream e ++ [Initialize serialno] /\
  encoder_audio_format e' = encoder_audio_format e /\
  vi_channels (vi e') = channels (encoder_audio_format e) /\
  vd e' = vorbis_analysis_init (vi e') /\
  vb e' = vorbis_block_init (vd e').
Proof.
  unfold vorbis_encoder_reinit, vorbis_encode_init_vbr, vorbis_encode_init.
  cbn [quality bitrate encoder_audio_format vi set_vi].
  destruct (dleb c_minus_1 (double_of_float (quality e))).
  - destruct (encode_setup_vbr _ _ _); cbn; [|done].
    intros [= <- <-]. by cbn.
  - destruct (encode_setup_managed _ _ _ _ _); cbn; [|done].
    intros [= <- <-]. by cbn.
Qed.

Lemma vorbis_encoder_reinit_audio_format e serialno :
  encoder_audio_format (snd (vorbis_encoder_reinit e serialno))
  = encoder_audio_format e.
Proof.
  unfold vorbis_encoder_reinit, vorbis_encode_init_vbr, vorbis_encode_init.
  cbn [quality bitrate encoder_audio_format vi set_vi].
  destruct (dleb c_minus_1 (double_of_float (quality e))).
  - by destruct (encode_setup_vbr _ _ _).
  - by destruct (encode_setup_managed _ _ _ _ _).
Qed.

(** A successful open begins a logical stream and submits its three
    headers, and leaves an open session. *)
Lemma vorbis_encoder_open_true e af serialno error e' af' :
  vorbis_encoder_open e af serialno = (true, error, e', af') ->
  exists op op_comm op_code,
    kind op = Identification /\ kind op_comm = Comments /\
    kind op_code = Setup /\
    stream e' = stream e ++ [Initialize serialno; PacketIn op;
                             PacketIn op_comm; PacketIn op_code] /\
    (audio_format_valid af -> session_open e').
Proof.
  unfold vorbis_encoder_open.
  destruct (vorbis_encoder_reinit _ _) as [[ok err] e1] eqn:E.
  destruct ok; cbn; [|done]. intros [= <- <- <-].
  apply vorbis_encoder_reinit_true in E
    as (_ & Es & Eaf & Evi & Evd & Evb).
  unfold vorbis_encoder_send_header.
  destruct (vorbis_encoder_headerout_spec e1 vorbis_comment_init)
    as (vd' & a & b & c & _ & Ka & Kb & Kc & Hvi & _ & Eq).
  cbn in Es, Eaf, Evi.
  exists a, b, c. rewrite Eq. cbn.
  split; [done|]. split; [done|]. split; [done|]. split.
  - rewrite Es. by rewrite <- app_assoc.
  - intros Hvalid. unfold session_open. cbn. rewrite Eaf, Evi, Hvi, Evd.
    by repeat split; try apply Hvalid.
Qed.

(** What one operation appends to the history: a restart and the three
    headers for a tag, and otherwise audio packets, flushes and reads. *)
Lemma apply_op_spec e op e' :
  apply_op e op = Some e' ->
  (session_open e -> session_open e') /\
  encoder_audio_format e' = encoder_audio_format e /\
  exists l, stream e' = stream e ++ l /\
    match op with
    | op_tag _ serialno =>
        exists op op_comm op_code,
          kind op = Identification /\ kind op_comm = Comments /\
          kind op_code = Setup /\
          l = [Reinitialize serialno; PacketIn op; PacketIn op_comm;
               PacketIn op_code]
    | _ => Forall (fun c => keeps_streaming c = true) l
    end.
Proof.
  destruct op as [data length| | |tag serialno|length]; cbn [apply_op].
  - destruct (vorbis_encoder_write e data length) as [[r e1]|] eqn:E; [|done].
    intros [= <-].
    apply vorbis_encoder_write_inv in E as (_ & (l & El & Al) & Eaf & Evi & Evd).
    split; [|split; [done|]].
    + unfold session_open. by rewrite Eaf, Evi, Evd.
    + exists l. split; [done | by apply keeps_streaming_audio].
  - intros [= <-]. split; [done|]. split; [done|].
    exists [Flush]. split; [done|]. by repeat constructor.
  - rewrite vorbis_encoder_pre_tag_spec. cbn [snd]. intros [= <-].
    match goal with |- context [vorbis_encoder_blockout ?x] =>
      destruct (vorbis_encoder_blockout_inv x)
        as ((_ & _ & Haf & Hvi & Hvd & _) & (l & El & Al)) end.
    cbn in *. split; [|split; [done|]].
    + unfold session_open. cbn. rewrite Haf, Hvi. tauto.
    + exists (l ++ [Flush]). split; [by rewrite El, app_assoc|].
      apply Forall_app. split; [by apply keeps_streaming_audio|].
      by repeat constructor.
  - destruct (vorbis_encoder_tag_spec e tag serialno)
      as (vd' & a & b & c & _ & Ka & Kb & Kc & Hvi & _ & Eq).
    rewrite Eq. cbn [snd]. intros [= <-]. cbn. split; [|split; [done|]].
    + unfold session_open. cbn. by rewrite Hvi.
    + eexists. split; [reflexivity|]. by exists a, b, c.
  - intros [= <-]. split; [done|]. split; [done|].
    exists [PageOut length]. split; [done|]. by repeat constructor.
Qed.

Lemma run_session_open ops : forall e e',
  run ops e = Some e' -> session_open e -> session_open e'.
Proof.
  induction ops as [|op ops IH]; intros e e'; cbn.
  - by intros [= <-].
  - destruct (apply_op e op) as [e1|] eqn:E; [|done].
    intros Hrun Hopen. apply (IH _ _ Hrun).
    by apply (apply_op_spec _ _ _ E).
Qed.

(** A sequence of operations whose writes keep the caller's side runs to
    its end. *)
Lemma run_defined ops : forall e,
  session_open e -> ops_input_ok e ops -> exists e', run ops e = Some e'.
Proof.
  induction ops as [|op ops IH]; intros e Hopen Hok; cbn; [by eexists|].
  apply Forall_cons in Hok as [Hop Hok].
  assert (exists e1, apply_op e op = Some e1) as [e1 E].
  { destruct op as [data length| | | |]; cbn; try by eexists.
    destruct (vorbis_encoder_write_spec e data length Hopen Hop)
      as (buffer' & _ & _ & _ & _ & ->). by eexists. }
  rewrite E. destruct (apply_op_spec _ _ _ E) as (Hopen1 & Haf & _).
  apply IH; [by apply Hopen1|].
  eapply Forall_impl; [exact Hok|].
  intros [data length| | | |]; try done.
  unfold write_input_ok. by rewrite Haf.
Qed.

End History.

(* ===================================================================== *)
(** ** The session *)
(* ===================================================================== *)

Section Session.
Context {LO : Libogg} {LV : Libvorbis} {TN : TagNames}.

Lemma run_keeps_streaming ops : forall e e',
  run ops e = Some e' ->
  phase_after NoStream (stream e) = Some Streaming ->
  phase_after NoStream (stream e') = Some Streaming.
Proof.
  induction ops as [|op ops IH]; intros e e'; cbn.
  - by intros [= <-].
  - destruct (apply_op e op) as [e1|] eqn:E; [|done].
    intros Hrun Hph. apply (IH _ _ Hrun).
    destruct (apply_op_spec _ _ _ E) as (_ & _ & l & -> & Hl).
    rewrite phase_after_app, Hph.
    destruct op; try (by apply keeps_streaming_phase).
    destruct Hl as (a & b & c & Ka & Kb & Kc & ->).
    cbn. by rewrite Ka, Kb, Kc.
Qed.

Lemma run_serialno ops : forall e e',
  run ops e = Some e' ->
  serialno_assignments (stream e')
    = (serialno_assignments (stream e) + count_tags ops)%nat /\
  (count_tags ops = 0%nat ->
   serialno_of (stream e') = serialno_of (stream e)).
Proof.
  induction ops as [|op ops IH]; intros e e'; cbn.
  - intros [= <-]. unfold count_tags. cbn. split; [lia | done].
  - destruct (apply_op e op) as [e1|] eqn:E; [|done].
    intros Hrun. destruct (IH _ _ Hrun) as [IH1 IH2].
    destruct (apply_op_spec _ _ _ E) as (_ & _ & l & El & Hl).
    rewrite IH1, El, serialno_assignments_app. unfold count_tags in *.
    unfold serialno_of in *. cbn [List.filter].
    destruct op; cbn [is_tag]; cbn [Datatypes.length];
      try (destruct (keeps_streaming_serialno l Hl) as [-> Hcur];
           split; [lia|]; intros H0; rewrite (IH2 H0), El, last_serialno_app;
           apply Hcur).
    destruct Hl as (a & b & c & _ & _ & _ & ->). cbn. split; [lia | done].
Qed.

Lemma count_changing_tags_le ops : forall cur,
  (count_changing_tags cur ops <= count_tags ops)%nat.
Proof.
  unfold count_tags.
  induction ops as [|op ops IH]; intros cur; [done|].
  destruct op; cbn; try apply IH.
  pose proof (serialno_change_le cur serialno). specialize (IH (Some serialno)).
  lia.
Qed.

Lemma run_serialno_changes ops : forall e e',
  run ops e = Some e' ->
  serialno_changes (stream e')
  = (serialno_changes (stream e)
     + count_changing_tags (serialno_of (stream e)) ops)%nat.
Proof.
  induction ops as [|op ops IH]; intros e e'; cbn [run].
  - intros [= <-]. cbn. lia.
  - destruct (apply_op e op) as [e1|] eqn:E; [|done].
    intros Hrun. rewrite (IH _ _ Hrun).
    destruct (apply_op_spec _ _ _ E) as (_ & _ & l & El & Hl).
    unfold serialno_changes, serialno_of. rewrite El.
    rewrite serialno_changes_from_app, last_serialno_app.
    destruct op; cbn [count_changing_tags];
      try (rewrite (keeps_streaming_serialno_changes l Hl);
           destruct (keeps_streaming_serialno l Hl) as [_ ->]; lia).
    destruct Hl as (a & b & c & _ & _ & _ & ->). cbn. lia.
Qed.

(** C7.  [vorbis_encoder_open] sets the sample format of the caller's
    descriptor to float and leaves its channel count and sample rate as
    they were; the format stored in the encoder is the descriptor so
    changed.  This holds whether or not the open succeeds. *)
Theorem open_forces_float_format e af serialno :
  let result := vorbis_encoder_open e af serialno in
  let e' := snd (fst result) in
  let af' := snd result in
  format af' = SAMPLE_FORMAT_FLOAT /\
  channels af' = channels af /\
  sample_rate af' = sample_rate af /\
  encoder_audio_format e' = af'.
Proof.
  cbn zeta. unfold vorbis_encoder_open.
  match goal with |- context [vorbis_encoder_reinit ?x ?s] =>
    pose proof (vorbis_encoder_reinit_audio_format x s) as Haf;
    destruct (vorbis_encoder_reinit x s) as [[ok err] e1] end.
  cbn in Haf. destruct ok; cbn; repeat split; try done.
  unfold vorbis_encoder_send_header.
  destruct (vorbis_encoder_headerout_spec e1 vorbis_comment_init)
    as (vd' & a & b & c & _ & _ & _ & _ & _ & _ & ->). done.
Qed.

(** C6.  [vorbis_encoder_pre_tag] marks the end of the segment by
    telling the analysis that 0 frames were written, and drains the
    library: as long as [vorbis_analysis_blockout] hands out a block, the
    block is analysed and added, and every packet that
    [vorbis_bitrate_flushpacket] then hands out is submitted to the
    container stream, in order, until it hands out none; the packets
    submitted are the one list the library has to give from the marked
    state ([blocks_drained]), all of them audio packets, and nothing else
    is submitted.  Then a fresh analysis state and block are made from the
    same [vorbis_info], which is left as it was, and last the stream is
    asked for a flush; the function returns [true]. *)
Theorem pre_tag_drains_and_reinitializes e :
  let marked := set_vd e (vorbis_analysis_wrote (vd e) 0) in
  let emptied := vorbis_encoder_blockout marked in
  let e' := snd (vorbis_encoder_pre_tag e) in
  eofflag (vd marked) = true /\
  drained marked emptied /\
  audio_appended e emptied /\
  (exists packets vd1 vb1,
     blocks_drained (vorbis_analysis_wrote (vd e) 0) (vb e) packets vd1 vb1 /\
     (forall packets' vd1' vb1',
        blocks_drained (vorbis_analysis_wrote (vd e) 0) (vb e)
          packets' vd1' vb1' ->
        packets' = packets) /\
     Forall (fun p => kind p = Audio) packets /\
     vd emptied = vd1 /\ vb emptied = vb1 /\
     stream emptied = stream e ++ map PacketIn packets /\
     stream e' = stream e ++ map PacketIn packets ++ [Flush]) /\
  stream e' = stream emptied ++ [Flush] /\
  vd e' = vorbis_analysis_init (vi e) /\
  eofflag (vd e') = false /\
  vb e' = vorbis_block_init (vd e') /\
  vi e' = vi e /\
  encoder_audio_format e' = encoder_audio_format e /\
  fst (vorbis_encoder_pre_tag e) = true.
Proof.
  cbn zeta. rewrite vorbis_encoder_pre_tag_spec.
  destruct (vorbis_encoder_blockout_inv
              (set_vd e (vorbis_analysis_wrote (vd e) 0)))
    as ((_ & _ & Haf & Hvi & _) & Ha).
  destruct (vorbis_encoder_blockout_blocks_drained
              (set_vd e (vorbis_analysis_wrote (vd e) 0)))
    as (packets & vd1 & vb1 & Hd & Eb).
  cbn [vd vb stream set_vd] in Hd.
  cbn [fst snd vd vb vi stream encoder_audio_format] in *.
  rewrite Hvi, Haf.
  split; [reflexivity|]. split; [apply vorbis_encoder_blockout_drained|].
  split; [exact Ha|]. split.
  { exists packets, vd1, vb1. split; [exact Hd|]. split.
    { intros packets' vd1' vb1' Hd'.
      by destruct (blocks_drained_unique _ _ _ _ _ Hd _ _ _ Hd') as [-> _]. }
    split; [by eapply blocks_drained_audio|].
    rewrite Eb. cbn [vd vb stream set_stream set_vb set_vd].
    repeat split; try reflexivity. by rewrite <- app_assoc. }
  repeat split; reflexivity.
Qed.

(** C1, as the code has it.  [vorbis_encoder_tag] restarts the container
    stream with the new serial number and submits the three header
    packets made from the comment fields of the new tag, and the session
    is streaming again.  It does not reset the codec state: the state is
    the one [vorbis_analysis_headerout] leaves, with the end-of-stream
    marker as it was.  The reset is the work of
    [vorbis_encoder_pre_tag]: after it, the tag leaves the marker
    clear. *)
Theorem tag_restarts_stream_and_resends_headers e tag serialno :
  exists vd' op op_comm op_code,
    vorbis_analysis_headerout (vd e) (comment_fields tag)
      = (vd', (op, op_comm, op_code)) /\
    kind op = Identification /\ kind op_comm = Comments /\
    kind op_code = Setup /\
    let e' := snd (vorbis_encoder_tag e tag serialno) in
    fst (vorbis_encoder_tag e tag serialno) = true /\
    stream e' = stream e ++ [Reinitialize serialno; PacketIn op;
                             PacketIn op_comm; PacketIn op_code] /\
    serialno_of (stream e') = Some serialno /\
    vd e' = vd' /\ eofflag (vd e') = eofflag (vd e) /\
    vb e' = vb e /\ vi e' = vi e /\
    (session_open e -> session_open e') /\
    (phase_after NoStream (stream e) = Some Streaming ->
     phase_after NoStream (stream e') = Some Streaming) /\
    eofflag (vd (snd (vorbis_encoder_tag
                        (snd (vorbis_encoder_pre_tag e)) tag serialno)))
      = false.
Proof.
  assert (eofflag (vd (snd (vorbis_encoder_tag
                             (snd (vorbis_encoder_pre_tag e)) tag serialno)))
          = false) as Hreset.
  { destruct (vorbis_encoder_tag_spec (snd (vorbis_encoder_pre_tag e))
                tag serialno)
      as (vd2 & a2 & b2 & c2 & _ & _ & _ & _ & _ & Heof2 & ->).
    cbn [snd vd]. rewrite Heof2. by rewrite vorbis_encoder_pre_tag_spec. }
  destruct (vorbis_encoder_tag_spec e tag serialno)
    as (vd' & a & b & c & E & Ka & Kb & Kc & Hvi & Heof & Eq).
  exists vd', a, b, c. rewrite Eq in *. cbn [fst snd stream vd vb vi].
  split; [done|]. split; [done|]. split; [done|]. split; [done|].
  split; [done|]. split; [done|]. split.
  { unfold serialno_of. by rewrite last_serialno_app. }
  split; [done|]. split; [done|]. split; [done|]. split; [done|]. split.
  { unfold session_open. cbn. by rewrite Hvi. }
  split; [|exact Hreset].
  intros Hph. rewrite phase_after_app, Hph. cbn. by rewrite Ka, Kb, Kc.
Qed.

(** C2.  From an encoder without a logical stream, a successful open
    and any operations after it leave a history in which every logical
    stream starts with its identification, comment and setup packets, in
    that order, before any audio packet, with no audio packet between
    the begin or restart and the third header; closing ends the last
    stream after its headers. *)
Theorem headers_precede_audio e0 af serialno error e1 af' ops e2 :
  phase_after NoStream (stream e0) = Some NoStream ->
  vorbis_encoder_open e0 af serialno = (true, error, e1, af') ->
  run ops e1 = Some e2 ->
  phase_after NoStream (stream e1) = Some Streaming /\
  phase_after NoStream (stream e2) = Some Streaming /\
  phase_after NoStream (stream (vorbis_encoder_close e2)) = Some NoStream.
Proof.
  intros H0 Hopen Hrun.
  apply vorbis_encoder_open_true in Hopen
    as (a & b & c & Ka & Kb & Kc & Es & _).
  assert (phase_after NoStream (stream e1) = Some Streaming) as H1.
  { rewrite Es, phase_after_app, H0. cbn. by rewrite Ka, Kb, Kc. }
  pose proof (run_keeps_streaming _ _ _ Hrun H1) as H2.
  split; [done|]. split; [done|].
  unfold vorbis_encoder_close, vorbis_encoder_clear, OggStream_call.
  cbn [stream set_stream set_vb set_vd set_vi].
  by rewrite phase_after_app, H2.
Qed.

(** C5, as the code has it.  Over any sequence of write, flush, preTag,
    updateTag and read on a session, the serial number of the container
    stream is assigned once for each updateTag, to the number drawn for
    it, and by nothing else.  Its value changes at an updateTag exactly
    when the number drawn differs from the serial number in force: the
    number of changes grows by the number of such updateTags, which is at
    most the number of updateTags; without an updateTag the serial number
    stays what it was; and close assigns none. *)
Theorem serialno_changes_once_per_tag e ops e' :
  run ops e = Some e' ->
  serialno_assignments (stream e')
    = (serialno_assignments (stream e) + count_tags ops)%nat /\
  serialno_changes (stream e')
    = (serialno_changes (stream e)
       + count_changing_tags (serialno_of (stream e)) ops)%nat /\
  (count_changing_tags (serialno_of (stream e)) ops <= count_tags ops)%nat /\
  (count_tags ops = 0%nat ->
   serialno_of (stream e') = serialno_of (stream e)) /\
  (forall tag serialno,
     let e'' := snd (vorbis_encoder_tag e' tag serialno) in
     serialno_of (stream e'') = Some serialno /\
     serialno_assignments (stream e'') = S (serialno_assignments (stream e')) /\
     serialno_changes (stream e'')
       = (serialno_changes (stream e')
          + serialno_change (serialno_of (stream e')) serialno)%nat /\
     (serialno_changes (stream e'') = serialno_changes (stream e')
      <-> serialno_of (stream e') = Some serialno)) /\
  serialno_assignments (stream (vorbis_encoder_close e'))
    = serialno_assignments (stream e') /\
  serialno_changes (stream (vorbis_encoder_close e'))
    = serialno_changes (stream e') /\
  serialno_of (stream (vorbis_encoder_close e')) = serialno_of (stream e').
Proof.
  intros Hrun. destruct (run_serialno _ _ _ Hrun) as [H1 H2].
  split; [done|]. split; [by apply run_serialno_changes|].
  split; [apply count_changing_tags_le|]. split; [done|]. split.
  { intros tag serialno.
    destruct (vorbis_encoder_tag_spec e' tag serialno)
      as (? & ? & ? & ? & _ & _ & _ & _ & _ & _ & ->). cbn [snd stream].
    unfold serialno_of, serialno_changes.
    rewrite last_serialno_app, serialno_assignments_app,
      serialno_changes_from_app.
    cbn [last_serialno serialno_changes_from].
    split; [reflexivity|]. split; [cbn; lia|]. split; [lia|].
    rewrite <- serialno_change_0. lia. }
  unfold vorbis_encoder_close, vorbis_encoder_clear, OggStream_call,
    serialno_of, serialno_changes.
  cbn [stream set_stream set_vb set_vd set_vi].
  rewrite serialno_assignments_app, last_serialno_app,
    serialno_changes_from_app.
  cbn. split; [lia|]. split; [lia | done].
Qed.

End Session.

Section Operations.
Context {LO : Libogg} {LV : Libvorbis} {TN : TagNames}.

(** C8.  On an open session, write, flush, preTag and updateTag report
    success: write returns [true] for every input that keeps the
    caller's side, and [true] whenever it returns at all; flush, preTag
    and updateTag return [true] always; every sequence of operations
    whose writes keep the caller's side runs to its end, and the session
    it leads to is an open session again. *)
Theorem runtime_operations_report_success e :
  session_open e ->
  (forall data length, write_input_ok e data length ->
     exists e', vorbis_encoder_write e data length = Some (true, e')) /\
  (forall data length r e',
     vorbis_encoder_write e data length = Some (r, e') -> r = true) /\
  fst (vorbis_encoder_flush e) = true /\
  fst (vorbis_encoder_pre_tag e) = true /\
  (forall tag serialno, fst (vorbis_encoder_tag e tag serialno) = true) /\
  (forall ops, ops_input_ok e ops -> exists e', run ops e = Some e') /\
  (forall ops e', run ops e = Some e' -> session_open e').
Proof.
  intros Hopen. split.
  { intros data length Hok.
    destruct (vorbis_encoder_write_spec e data length Hopen Hok)
      as (buffer' & _ & _ & _ & _ & ->). eauto. }
  split.
  { intros data length r e' E.
    by apply vorbis_encoder_write_inv in E as (-> & _). }
  split; [done|]. split; [done|]. split; [done|]. split.
  { intros ops Hok. by apply run_defined. }
  intros ops e' Hrun. by eapply run_session_open.
Qed.

(** C9, as the code has it.  When the number of whole frames in
    [length] bytes fits an [int], [vorbis_encoder_write] takes exactly
    that many frames: the bytes of a trailing partial frame change
    nothing, the sample [frame * channels + channel] of the source, which
    lies inside the source buffer, goes to [frame] of the buffer of
    [channel], and that many frames are reported to the analysis. *)
Theorem write_deinterleaves_whole_frames e data length :
  session_open e ->
  0 <= length ->
  length / 4 <= Z.of_nat (List.length data) ->
  length / audio_format_frame_size (encoder_audio_format e) <= INT_MAX ->
  let af := encoder_audio_format e in
  let nc := channels af in
  let nf := length / audio_format_frame_size af in
  write_num_frames e length = Some nf /\
  nf * audio_format_frame_size af <= length
    < (nf + 1) * audio_format_frame_size af /\
  exists buffer',
    interleaved_to_vorbis_buffer (vorbis_analysis_buffer (vd e) nf) data nf nc
      = Some buffer' /\
    (forall frame channel, 0 <= frame < nf -> 0 <= channel < nc ->
       frame * nc + channel < length / 4 /\
       cell buffer' (Z.to_nat channel) (Z.to_nat frame)
         = data !! Z.to_nat (frame * nc + channel)) /\
    vorbis_encoder_write e data length =
      Some (true,
            vorbis_encoder_blockout
              (set_vd e
                 (vorbis_analysis_wrote
                    (vorbis_analysis_buffer_written (vd e) buffer') nf))) /\
    vorbis_encoder_write e data (nf * audio_format_frame_size af)
      = vorbis_encoder_write e data length.
Proof.
  intros Hopen Hlen Hdata Hint af nc nf.
  change (nf <= INT_MAX) in Hint. unfold INT_MAX in Hint.
  destruct (frame_size_open e Hopen) as [Hfs Hch]. fold af nc in Hfs, Hch.
  assert (0 < audio_format_frame_size af) as Hpos by lia.
  assert (0 <= nf) as Hnf0 by (apply Z.div_pos; lia).
  assert (to_unsigned (length / audio_format_frame_size af) = nf) as Hu.
  { unfold to_unsigned. apply Z.mod_small. fold nf. lia. }
  assert (write_input_ok e data length) as Hok.
  { unfold write_input_ok, INT_MAX. fold af. rewrite Hu. done. }
  destruct (vorbis_encoder_write_spec e data length Hopen Hok)
    as (buffer' & Enf & Eq & _ & Hcells & Ew).
  fold af nc in Enf, Eq, Hcells, Ew. rewrite Hu in Enf, Eq, Hcells, Ew.
  assert (nf * audio_format_frame_size af <= length
            < (nf + 1) * audio_format_frame_size af) as Hwhole.
  { pose proof (Z.mul_div_le length _ Hpos) as Hlo.
    pose proof (Z.mul_succ_div_gt length _ Hpos) as Hhi.
    change (length / audio_format_frame_size af) with nf in Hlo, Hhi. lia. }
  assert (nf * nc <= length / 4) as Hfit.
  { apply Z.div_le_lower_bound; [lia|]. rewrite Hfs in Hwhole. lia. }
  split; [exact Enf|]. split; [exact Hwhole|].
  exists buffer'. split; [exact Eq|]. split; [|split; [exact Ew|]].
  - intros frame channel Hf Hc. split; [nia|].
    destruct (Hcells (Z.to_nat frame) (Z.to_nat channel)) as [_ ->]; [lia..|].
    f_equal. lia.
  - unfold vorbis_encoder_write, write_num_frames. fold af.
    rewrite Z.div_mul by lia. done.
Qed.

(** C3, as the code has it.  With both a quality and a bitrate present,
    configuration fails: with InvalidQuality when the quality string
    fails the test of the code, which comes first, and with
    ConflictingMode when it passes.  The string passes when
    [g_ascii_strtod] stops at its end and the value, kept as [float], is
    neither less than -1 nor greater than 10.  That is more than the
    numbers within [-1, 10]: the empty string (read as 0), [nan] and
    [10.0000001] (10 as [float]) pass, and give ConflictingMode, as do
    the hexadecimal [0xA] and [nan(1)]; [abc], [7 ], [11] and [inf] do not.
    With neither a quality nor a bitrate present configuration fails with
    MissingMode. *)
Theorem configure_both_or_neither e param :
  is_Some (config_get_block_string param "quality")
    <-> is_Some (config_get_block_string param "bitrate") ->
  let result := vorbis_encoder_configure e param in
  fst (fst result) = false /\
  configure_error result =
    Some match config_get_block_string param "quality" with
         | Some value =>
             if quality_test_passes value then ConflictingMode
             else InvalidQuality
         | None => MissingMode
         end /\
  (forall value,
     quality_test_passes value = true <->
     exists d,
       g_ascii_strtod value = (d, EmptyString) /\
       dltb (double_of_float (float_of_double d)) c_minus_1 = false /\
       dltb c_10 (double_of_float (float_of_double d)) = false) /\
  Forall (fun value => quality_test_passes value = true)
    [""; "nan"; "10.0000001"; "0xA"; "nan(1)"; "5.0"; "-1"; "10"]%string /\
  Forall (fun value => quality_test_passes value = false)
    ["abc"; "7 "; "11"; "inf"; "-1.5"; "0xB"; "nan("]%string.
Proof.
  intros Hboth. cbn zeta. split; [|split; [|split; [|split]]].
  - unfold vorbis_encoder_configure.
    destruct (config_get_block_string param "quality") as [value|].
    + destruct (g_ascii_strtod value) as [d endptr].
      destruct (_ || _ || _); [done|].
      destruct (proj1 Hboth) as [b Hb]; [by eexists|]. by rewrite Hb.
    + destruct (config_get_block_string param "bitrate") as [b|] eqn:Hb;
        [|done].
      destruct (proj2 Hboth) as [q Hq]; [by eexists|]. done.
  - unfold vorbis_encoder_configure, quality_test_passes.
    destruct (config_get_block_string param "quality") as [value|].
    + destruct (proj1 Hboth) as [b Hb]; [by eexists|]. rewrite Hb.
      destruct (g_ascii_strtod value) as [d endptr].
      cbn [quality set_quality].
      destruct (not_at_end endptr); [done|].
      destruct (dltb (double_of_float (float_of_double d)) c_minus_1); [done|].
      destruct (dltb c_10 (double_of_float (float_of_double d))); done.
    + destruct (config_get_block_string param "bitrate") as [b|] eqn:Hb;
        [|done].
      destruct (proj2 Hboth) as [q Hq]; [by eexists|]. done.
  - intros value. unfold quality_test_passes.
    destruct (g_ascii_strtod value) as [d endptr]. split.
    + intros H. apply andb_prop in H as [H H3]. apply andb_prop in H as [H1 H2].
      apply negb_true_iff in H1, H2, H3.
      destruct endptr; [|discriminate H1]. by exists d.
    + intros (d' & [= <- ->] & -> & ->). reflexivity.
  - repeat constructor; vm_compute; reflexivity.
  - repeat constructor; vm_compute; reflexivity.
Qed.

(** C4, at the empty string.  A quality setting that is the empty
    string holds no number, and yet configuration succeeds, with the
    quality 0: [g_ascii_strtod] converts nothing and leaves [endptr] at
    the start of the string, which is its end. *)
Theorem configure_accepts_empty_quality e l :
  vorbis_encoder_configure e
    {| line := l; block_params := [("quality", "")]%string |}
  = (true, None, set_quality e (S754_zero false)).
Proof. reflexivity. Qed.

End Operations.

(* ===================================================================== *)
(** ** The encoder on concrete inputs *)
(* ===================================================================== *)

Section Concrete.
Import Reference.
#[local] Existing Instances ogg vorbis tags.

(** Closed facts about the instance, by evaluation. *)
Ltac by_evaluation :=
  repeat split; vm_compute; first [reflexivity | discriminate].

(** *** Evaluations *)

Example quality_strings :
  map quality_test_passes
    ["5.0"; "10"; "-1"; " 7"; "1e1"; "10.5"; "-1.5"; "abc"; "7 "; "inf";
     ""; "nan"; "10.0000001"]%string
  = [true; true; true; true; true; false; false; false; false; false;
     true; true; true].
Proof. reflexivity. Qed.

(** What [g_ascii_strtod] reads of hexadecimal constants and of [nan]:
    the value and the rest. *)
Example g_ascii_strtod_hexadecimal :
  map g_ascii_strtod
    ["0x5"; "0XA"; "-0x1.8p1"; "0x.8"; "0x1p-1"; "0x"; "0xg"; "0x1p";
     "0x1p+"]%string
  = [(double_of_Z 5, ""); (double_of_Z 10, ""); (double_of_Z (-3), "");
     (double_of_decimal false 5 (-1), ""); (double_of_decimal false 5 (-1), "");
     (S754_zero false, "x"); (S754_zero false, "xg"); (double_of_Z 1, "p");
     (double_of_Z 1, "p+")]%string.
Proof. vm_compute. reflexivity. Qed.

Example g_ascii_strtod_nan :
  map g_ascii_strtod
    ["nan"; "NaN(1)"; "-nan(a_1)"; "nan()"; "nan("; "nan(1"; "nan(-)";
     "nanx"]%string
  = [(S754_nan, ""); (S754_nan, ""); (S754_nan, ""); (S754_nan, "");
     (S754_nan, "("); (S754_nan, "(1"); (S754_nan, "(-)");
     (S754_nan, "x")]%string.
Proof. vm_compute. reflexivity. Qed.

Example configure_errors :
  map (fun p => configure_error (vorbis_encoder_configure fresh (params p)))
    [[("quality", "5.0")]; [("bitrate", "128")]; [("bitrate", "0")];
     [("bitrate", "12k")]; [("bitrate", "")]; [];
     [("quality", "5"); ("bitrate", "x")];
     [("quality", "11"); ("bitrate", "128")]]%string
  = [None; None; Some InvalidBitrate; Some InvalidBitrate;
     Some InvalidBitrate; Some MissingMode; Some ConflictingMode;
     Some InvalidQuality].
Proof. reflexivity. Qed.

(** With a bitrate beside it, a quality that is no number within
    [-1, 10] and yet passes the test gives the error of the conflict. *)
Example configure_errors_with_bitrate :
  map (fun q => configure_error
                  (vorbis_encoder_configure fresh
                     (params [("quality", q); ("bitrate", "128")]%string)))
    [""; "nan"; "10.0000001"; "0x5"; "abc"; "11"; "0x5g"]%string
  = [Some ConflictingMode; Some ConflictingMode; Some ConflictingMode;
     Some ConflictingMode; Some InvalidQuality; Some InvalidQuality;
     Some InvalidQuality].
Proof. vm_compute. reflexivity. Qed.

(** [vorbis_encoder_pre_tag] after six frames: the write took one block
    of four frames, and the drain of preTag submits the packet of the
    last block, padded at the end of the stream, before the flush. *)
Example pre_tag_submits_the_last_packet :
  match vorbis_encoder_write opened eight_frames 48 with
  | Some (_, e) =>
      stream e = stream opened ++ [PacketIn (mk_packet Audio 0)] /\
      stream (snd (vorbis_encoder_pre_tag e))
      = stream e ++ [PacketIn (mk_packet Audio 0); Flush]
  | None => False
  end.
Proof. vm_compute. split; reflexivity. Qed.

Example opened_stream :
  stream opened
  = [Initialize 7; PacketIn (mk_packet Identification 1);
     PacketIn (mk_packet Comments 3); PacketIn (mk_packet Setup 5)].
Proof. reflexivity. Qed.

Example after_session_stream :
  stream after_session
  = [Initialize 7; PacketIn (mk_packet Identification 1);
     PacketIn (mk_packet Comments 3); PacketIn (mk_packet Setup 5);
     PacketIn (mk_packet Audio 0); PacketIn (mk_packet Audio 0); Flush;
     Reinitialize 9; PacketIn (mk_packet Identification 1);
     PacketIn (mk_packet Comments 3); PacketIn (mk_packet Setup 5);
     PageOut 4096; PacketIn (mk_packet Audio 0); Flush].
Proof. vm_compute. reflexivity. Qed.

Example a_tag_fields :
  comment_fields a_tag = [("ARTIST", "Bach"); ("TITLE", "Air")]%string.
Proof. reflexivity. Qed.

Example eight_frames_deinterleaved :
  interleaved_to_vorbis_buffer (vorbis_analysis_buffer (vd opened) 8)
    eight_frames 8 2
  = Some [map sample [0; 2; 4; 6; 8; 10; 12; 14];
          map sample [1; 3; 5; 7; 9; 11; 13; 15]].
Proof. vm_compute. reflexivity. Qed.

(** *** The claims on concrete inputs *)

(** C1 as stated does not hold: on the open session at the end of its
    stream, [vorbis_encoder_tag] leaves the end-of-stream marker set, and
    the codec state is not the fresh one. *)
Lemma tag_leaves_end_of_stream_marker :
  session_open at_end_of_stream /\
  eofflag (vd at_end_of_stream) = true /\
  eofflag (vd (snd (vorbis_encoder_tag at_end_of_stream a_tag 9))) = true /\
  vd (snd (vorbis_encoder_tag at_end_of_stream a_tag 9))
    <> vorbis_analysis_init (vi at_end_of_stream).
Proof.
  split; [by_evaluation|].
  split; [reflexivity|]. split; [reflexivity|].
  intros E. apply (f_equal eofflag) in E. vm_compute in E. discriminate.
Qed.

(** C3 as stated does not hold: with the quality "abc" and a bitrate
    both present, the error is the one of the quality, not the one of
    the conflict. *)
Lemma configure_invalid_quality_with_bitrate :
  let param := params [("quality", "abc"); ("bitrate", "128")]%string in
  config_get_block_string param "quality" = Some "abc"%string /\
  config_get_block_string param "bitrate" = Some "128"%string /\
  configure_error (vorbis_encoder_configure fresh param) = Some InvalidQuality /\
  configure_error (vorbis_encoder_configure fresh param) <> Some ConflictingMode.
Proof.
  cbn zeta. split; [reflexivity|]. split; [reflexivity|].
  split; [reflexivity|]. vm_compute. discriminate.
Qed.

Lemma configure_both_or_neither_witness :
  let param := params [("quality", "5.0"); ("bitrate", "128")]%string in
  let empty := params [("quality", ""); ("bitrate", "128")]%string in
  (is_Some (config_get_block_string param "quality")
     <-> is_Some (config_get_block_string param "bitrate")) /\
  fst (fst (vorbis_encoder_configure fresh param)) = false /\
  configure_error (vorbis_encoder_configure fresh param) = Some ConflictingMode /\
  (is_Some (config_get_block_string empty "quality")
     <-> is_Some (config_get_block_string empty "bitrate")) /\
  configure_error (vorbis_encoder_configure fresh empty) = Some ConflictingMode.
Proof.
  cbn zeta.
  assert (is_Some (config_get_block_string
                     (params [("quality", "5.0"); ("bitrate", "128")]%string)
                     "quality")
          <-> is_Some (config_get_block_string
                     (params [("quality", "5.0"); ("bitrate", "128")]%string)
                     "bitrate")) as Hboth
    by (split; intros _; eexists; reflexivity).
  assert (is_Some (config_get_block_string
                     (params [("quality", ""); ("bitrate", "128")]%string)
                     "quality")
          <-> is_Some (config_get_block_string
                     (params [("quality", ""); ("bitrate", "128")]%string)
                     "bitrate")) as Hempty
    by (split; intros _; eexists; reflexivity).
  pose proof (configure_both_or_neither fresh
                (params [("quality", "5.0"); ("bitrate", "128")]%string) Hboth)
    as (Hfails & Herror & _).
  pose proof (configure_both_or_neither fresh
                (params [("quality", ""); ("bitrate", "128")]%string) Hempty)
    as (_ & Herror' & _).
  split; [exact Hboth|]. split; [exact Hfails|]. split; [exact Herror|].
  split; [exact Hempty | exact Herror'].
Defined.

(** C9 as stated does not hold: for 2^34 bytes of mono float samples,
    2^32 whole frames, the frame count of the write is 0. *)
Lemma write_num_frames_wraps :
  session_open opened_mono /\
  0 <= 2 ^ 34 <= SIZE_MAX /\
  2 ^ 34 / audio_format_frame_size (encoder_audio_format opened_mono) = 2 ^ 32 /\
  write_num_frames opened_mono (2 ^ 34) = Some 0 /\
  write_num_frames opened_mono (2 ^ 34)
    <> Some (2 ^ 34 / audio_format_frame_size (encoder_audio_format opened_mono)).
Proof.
  split; [by_evaluation|].
  split; [unfold SIZE_MAX; lia|]. split; [reflexivity|].
  split; [reflexivity|]. vm_compute. discriminate.
Qed.

Lemma write_deinterleaves_whole_frames_witness :
  session_open opened /\
  0 <= 67 /\
  67 / 4 <= Z.of_nat (List.length eight_frames) /\
  67 / audio_format_frame_size (encoder_audio_format opened) <= INT_MAX /\
  write_num_frames opened 67 = Some 8 /\
  vorbis_encoder_write opened eight_frames 64
    = vorbis_encoder_write opened eight_frames 67.
Proof.
  assert (0 <= 67) as H1 by lia.
  assert (67 / 4 <= Z.of_nat (List.length eight_frames)) as H2
    by (vm_compute; discriminate).
  assert (67 / audio_format_frame_size (encoder_audio_format opened)
          <= INT_MAX) as H3 by (vm_compute; discriminate).
  assert (session_open opened) as H0 by by_evaluation.
  pose proof (write_deinterleaves_whole_frames opened eight_frames 67
                H0 H1 H2 H3) as (Hnf & _ & _ & _ & _ & _ & Hsame).
  split; [exact H0|].
  split; [exact H1|]. split; [exact H2|]. split; [exact H3|].
  split; [exact Hnf | exact Hsame].
Defined.

Lemma headers_precede_audio_witness :
  phase_after NoStream (stream configured) = Some NoStream /\
  vorbis_encoder_open configured cd_audio 7
    = (true, None, opened, encoder_audio_format opened) /\
  run a_session opened = Some after_session /\
  phase_after NoStream (stream opened) = Some Streaming /\
  phase_after NoStream (stream after_session) = Some Streaming /\
  phase_after NoStream (stream (vorbis_encoder_close after_session))
    = Some NoStream.
Proof.
  assert (phase_after NoStream (stream configured) = Some NoStream) as H0
    by reflexivity.
  assert (vorbis_encoder_open configured cd_audio 7
          = (true, None, opened, encoder_audio_format opened)) as H1
    by reflexivity.
  assert (run a_session opened = Some after_session) as H2
    by (vm_compute; reflexivity).
  split; [exact H0|]. split; [exact H1|]. split; [exact H2|].
  exact (headers_precede_audio configured cd_audio 7 None opened
           (encoder_audio_format opened) a_session after_session H0 H1 H2).
Defined.

(** C5 as stated does not hold: an updateTag for which the number drawn
    is the serial number in force restarts the stream and leaves the
    serial number what it was, so that it has not changed once for that
    updateTag. *)
Lemma tag_with_the_serialno_in_force :
  let e' := snd (vorbis_encoder_tag opened a_tag 7) in
  session_open opened /\
  run [op_tag a_tag 7] opened = Some e' /\
  count_tags [op_tag a_tag 7] = 1%nat /\
  serialno_of (stream opened) = Some 7 /\
  serialno_of (stream e') = Some 7 /\
  serialno_changes (stream e') = serialno_changes (stream opened) /\
  serialno_changes (stream e') <> S (serialno_changes (stream opened)) /\
  serialno_assignments (stream e') = S (serialno_assignments (stream opened)).
Proof. cbn zeta. by_evaluation. Qed.

Lemma serialno_changes_once_per_tag_witness :
  run a_session opened = Some after_session /\
  serialno_assignments (stream after_session)
    = (serialno_assignments (stream opened) + 1)%nat /\
  serialno_changes (stream after_session)
    = (serialno_changes (stream opened) + 1)%nat /\
  serialno_of (stream opened) = Some 7 /\
  serialno_of (stream after_session) = Some 9.
Proof.
  assert (run a_session opened = Some after_session) as Hrun
    by (vm_compute; reflexivity).
  pose proof (serialno_changes_once_per_tag opened a_session after_session Hrun)
    as (Hn & Hc & _).
  split; [exact Hrun|]. split; [exact Hn|]. split; [exact Hc|].
  split; reflexivity.
Defined.

Lemma runtime_operations_report_success_witness :
  session_open opened /\
  fst (vorbis_encoder_flush opened) = true /\
  fst (vorbis_encoder_pre_tag opened) = true /\
  fst (vorbis_encoder_tag opened a_tag 9) = true /\
  exists e', vorbis_encoder_write opened eight_frames 64 = Some (true, e').
Proof.
  assert (session_open opened) as H0 by by_evaluation.
  pose proof (runtime_operations_report_success opened H0)
    as (Hw & _ & Hf & Hp & Ht & _).
  split; [exact H0|].
  split; [exact Hf|]. split; [exact Hp|]. split; [exact (Ht a_tag 9)|].
  apply Hw. unfold write_input_ok, INT_MAX.
  split; [lia|]. split; vm_compute; discriminate.
Defined.

End Concrete.

(* ===================================================================== *)
(** ** Further properties of the Winmm mixer *)
(* ===================================================================== *)

Lemma all_from_spec n : forall from f,
  all_from from n f = true ->
  forall z, from <= z < from + Z.of_nat n -> f z = true.
Proof.
  induction n as [|n IH]; intros from f Hall z Hz; [lia|].
  cbn [all_from] in Hall. apply andb_prop in Hall as [H0 Hrest].
  destruct (Z.eq_dec z from) as [->|Hne]; [done|].
  apply (IH (from + 1) f Hrest). lia.
Qed.

Lemma winmm_decode_encode v :
  0 <= v <= 100 -> winmm_volume_decode (winmm_volume_encode v) = v.
Proof.
  intros Hv.
  assert (all_from 0 101
            (fun v => winmm_volume_decode (winmm_volume_encode v) =? v) = true)
    as Hall by (vm_compute; reflexivity).
  apply Z.eqb_eq. apply (all_from_spec _ _ _ Hall). lia.
Qed.

Lemma LOWORD_MAKELONG a b : LOWORD (MAKELONG a b) = LOWORD a.
Proof.
  unfold LOWORD, MAKELONG. apply Z.bits_inj'. intros n Hn.
  rewrite !Z.land_spec, Z.lor_spec, Z.land_spec.
  change 65535 with (Z.ones 16).
  destruct (Z.lt_ge_cases n 16) as [Hlt|Hge].
  - rewrite Z.shiftl_spec_low by lia. rewrite Z.ones_spec_low by lia.
    by destruct (Z.testbit a n).
  - rewrite Z.ones_spec_high by lia. by rewrite !andb_false_r.
Qed.

(** X1 (decode reads the low word only).  [winmm_volume_decode] looks at
    the low 16 bits of the device value alone: whatever the high word
    (the right channel) holds, the volume decoded is that of the low
    word. *)
Theorem winmm_volume_decode_low_word lo hi :
  winmm_volume_decode (MAKELONG lo hi) = winmm_volume_decode lo.
Proof.
  unfold winmm_volume_decode.
  change (Z.land (MAKELONG lo hi) 65535) with (LOWORD (MAKELONG lo hi)).
  rewrite LOWORD_MAKELONG. reflexivity.
Qed.

(** X2 (no clamping).  [winmm_volume_encode] does not clamp: a volume from
    101 to 199 loses its excess over 16 bits, and decodes to the volume
    less 100. *)
Theorem winmm_volume_encode_wraps v :
  101 <= v <= 199 ->
  winmm_volume_decode (winmm_volume_encode v) = v - 100.
Proof.
  intros Hv.
  assert (all_from 101 99
            (fun v => winmm_volume_decode (winmm_volume_encode v) =? v - 100)
          = true) as Hall by (vm_compute; reflexivity).
  apply Z.eqb_eq. apply (all_from_spec _ _ _ Hall). lia.
Qed.

Lemma winmm_volume_encode_wraps_witness :
  101 <= 150 <= 199 /\
  winmm_volume_decode (winmm_volume_encode 150) = 50.
Proof. split; [lia | apply (winmm_volume_encode_wraps 150); lia]. Defined.

(** X3 (distinct volumes, distinct device values).  On 0..100 the
    encoding is strictly increasing in the word it puts in each half, so
    two volumes are encoded alike only when they are equal. *)
Theorem winmm_volume_encode_increasing v w :
  0 <= v -> v < w -> w <= 100 ->
  LOWORD (winmm_volume_encode v) < LOWORD (winmm_volume_encode w) /\
  winmm_volume_encode v <> winmm_volume_encode w.
Proof.
  intros H0 Hvw H100.
  assert (all_from 0 100
            (fun v => LOWORD (winmm_volume_encode v)
                      <? LOWORD (winmm_volume_encode (v + 1))) = true)
    as Hall by (vm_compute; reflexivity).
  assert (forall d : nat, forall v, 0 <= v -> v + Z.of_nat (S d) <= 100 ->
            LOWORD (winmm_volume_encode v)
            < LOWORD (winmm_volume_encode (v + Z.of_nat (S d)))) as Hstep.
  { induction d as [|d IH]; intros u Hu Hd.
    - apply Z.ltb_lt. apply (all_from_spec _ _ _ Hall). lia.
    - transitivity (LOWORD (winmm_volume_encode (u + Z.of_nat (S d)))).
      + apply IH; lia.
      + replace (u + Z.of_nat (S (S d))) with (u + Z.of_nat (S d) + 1) by lia.
        apply Z.ltb_lt. apply (all_from_spec _ _ _ Hall). lia. }
  assert (LOWORD (winmm_volume_encode v) < LOWORD (winmm_volume_encode w)) as Hlt.
  { replace w with (v + Z.of_nat (S (Z.to_nat (w - v - 1)))) by lia.
    apply Hstep; lia. }
  split; [exact Hlt|]. intros E. rewrite E in Hlt. lia.
Qed.

Lemma winmm_volume_encode_increasing_witness :
  0 <= 3 /\ 3 < 4 /\ 4 <= 100 /\
  LOWORD (winmm_volume_encode 3) < LOWORD (winmm_volume_encode 4) /\
  winmm_volume_encode 3 <> winmm_volume_encode 4.
Proof.
  split; [lia|]. split; [lia|]. split; [lia|].
  apply (winmm_volume_encode_increasing 3 4); lia.
Defined.

(** X4 (set, then get).  On a device that takes the value and gives it
    back, [SetVolume] with a volume from 0 to 100 succeeds and a
    [GetVolume] after it returns that volume, without error. *)
Theorem SetVolume_GetVolume `{WaveOut} handle handle' v :
  0 <= v <= 100 ->
  waveOutSetVolume handle (winmm_volume_encode v)
    = (MMSYSERR_NOERROR, handle') ->
  waveOutGetVolume handle' = (MMSYSERR_NOERROR, winmm_volume_encode v) ->
  SetVolume handle v = (true, None, handle') /\
  GetVolume handle' = (v, None).
Proof.
  intros Hv Hset Hget. unfold SetVolume, GetVolume.
  assert (to_int v = v) as -> by (unfold to_int; rewrite Z.mod_small; lia).
  rewrite Hset, Hget. cbn. by rewrite winmm_decode_encode.
Qed.

Lemma SetVolume_GetVolume_witness :
  0 <= 42 <= 100 /\
  @SetVolume stored_volume_device 0 42
    = (true, None, winmm_volume_encode 42) /\
  @GetVolume stored_volume_device (winmm_volume_encode 42) = (42, None).
Proof.
  split; [lia|].
  apply (@SetVolume_GetVolume stored_volume_device 0 (winmm_volume_encode 42) 42);
    [lia | reflexivity | reflexivity].
Defined.


(** X5 (the value encoded).  For a volume from 0 to 100 the double
    arithmetic of [winmm_volume_encode] gives the volume times 655.35
    rounded to the nearest integer, in both halves of the value: 0 for 0
    and all 32 bits set for 100. *)
Theorem winmm_volume_encode_value v :
  0 <= v <= 100 ->
  winmm_volume_encode v = 65537 * ((13107 * v + 10) / 20) /\
  LOWORD (winmm_volume_encode v) = (13107 * v + 10) / 20.
Proof.
  intros Hv.
  assert (all_from 0 101
            (fun v => (winmm_volume_encode v =? 65537 * ((13107 * v + 10) / 20))
                      && (LOWORD (winmm_volume_encode v)
                          =? (13107 * v + 10) / 20)) = true)
    as Hall by (vm_compute; reflexivity).
  pose proof (all_from_spec _ _ _ Hall v ltac:(lia)) as H. cbv beta in H.
  apply andb_prop in H as [H1 H2]. apply Z.eqb_eq in H1, H2.
  split; assumption.
Qed.

Lemma winmm_volume_encode_value_witness :
  0 <= 100 <= 100 /\
  winmm_volume_encode 100 = 65537 * ((13107 * 100 + 10) / 20) /\
  LOWORD (winmm_volume_encode 100) = (13107 * 100 + 10) / 20.
Proof. split; [lia | apply (winmm_volume_encode_value 100); lia]. Defined.

(* ===================================================================== *)
(** ** Further properties of the configuration *)
(* ===================================================================== *)

(** *** Decimal strings *)

Lemma read_digits_digit c k s acc n :
  g_ascii_digit_value c = Some k ->
  read_digits acc n (String c s) = read_digits (10 * acc + k) (n + 1) s.
Proof. intros Hc. cbn [read_digits]. by rewrite Hc. Qed.

Ltac read_one_digit k :=
  cbn [NilEmpty.string_of_uint Pos.of_uint_acc Pos.of_uint Decimal.nb_digits];
  rewrite (read_digits_digit _ k) by reflexivity.

Lemma read_digits_after d : forall p n,
  read_digits (Z.pos p) n (NilEmpty.string_of_uint d)
  = (Z.pos (Pos.of_uint_acc d p), n + Z.of_nat (Decimal.nb_digits d),
     EmptyString).
Proof.
  induction d as [|d IH|d IH|d IH|d IH|d IH|d IH|d IH|d IH|d IH|d IH];
    intros p n.
  - cbn. do 2 f_equal. lia.
  - read_one_digit 0. replace (10 * Z.pos p + 0) with (Z.pos (10 * p)) by lia.
    rewrite IH. do 2 f_equal. lia.
  - read_one_digit 1. replace (10 * Z.pos p + 1) with (Z.pos (1 + 10 * p)) by lia.
    rewrite IH. do 2 f_equal. lia.
  - read_one_digit 2. replace (10 * Z.pos p + 2) with (Z.pos (2 + 10 * p)) by lia.
    rewrite IH. do 2 f_equal. lia.
  - read_one_digit 3. replace (10 * Z.pos p + 3) with (Z.pos (3 + 10 * p)) by lia.
    rewrite IH. do 2 f_equal. lia.
  - read_one_digit 4. replace (10 * Z.pos p + 4) with (Z.pos (4 + 10 * p)) by lia.
    rewrite IH. do 2 f_equal. lia.
  - read_one_digit 5. replace (10 * Z.pos p + 5) with (Z.pos (5 + 10 * p)) by lia.
    rewrite IH. do 2 f_equal. lia.
  - read_one_digit 6. replace (10 * Z.pos p + 6) with (Z.pos (6 + 10 * p)) by lia.
    rewrite IH. do 2 f_equal. lia.
  - read_one_digit 7. replace (10 * Z.pos p + 7) with (Z.pos (7 + 10 * p)) by lia.
    rewrite IH. do 2 f_equal. lia.
  - read_one_digit 8. replace (10 * Z.pos p + 8) with (Z.pos (8 + 10 * p)) by lia.
    rewrite IH. do 2 f_equal. lia.
  - read_one_digit 9. replace (10 * Z.pos p + 9) with (Z.pos (9 + 10 * p)) by lia.
    rewrite IH. do 2 f_equal. lia.
Qed.

Lemma read_digits_from_zero d : forall n,
  read_digits 0 n (NilEmpty.string_of_uint d)
  = (Z.of_N (Pos.of_uint d), n + Z.of_nat (Decimal.nb_digits d), EmptyString).
Proof.
  induction d as [|d IH|d IH|d IH|d IH|d IH|d IH|d IH|d IH|d IH|d IH];
    intros n.
  - cbn. do 2 f_equal. lia.
  - read_one_digit 0. change (10 * 0 + 0) with 0.
    rewrite IH. do 2 f_equal. lia.
  - read_one_digit 1. change (10 * 0 + 1) with (Z.pos 1).
    rewrite read_digits_after. do 2 f_equal. lia.
  - read_one_digit 2. change (10 * 0 + 2) with (Z.pos 2).
    rewrite read_digits_after. do 2 f_equal. lia.
  - read_one_digit 3. change (10 * 0 + 3) with (Z.pos 3).
    rewrite read_digits_after. do 2 f_equal. lia.
  - read_one_digit 4. change (10 * 0 + 4) with (Z.pos 4).
    rewrite read_digits_after. do 2 f_equal. lia.
  - read_one_digit 5. change (10 * 0 + 5) with (Z.pos 5).
    rewrite read_digits_after. do 2 f_equal. lia.
  - read_one_digit 6. change (10 * 0 + 6) with (Z.pos 6).
    rewrite read_digits_after. do 2 f_equal. lia.
  - read_one_digit 7. change (10 * 0 + 7) with (Z.pos 7).
    rewrite read_digits_after. do 2 f_equal. lia.
  - read_one_digit 8. change (10 * 0 + 8) with (Z.pos 8).
    rewrite read_digits_after. do 2 f_equal. lia.
  - read_one_digit 9. change (10 * 0 + 9) with (Z.pos 9).
    rewrite read_digits_after. do 2 f_equal. lia.
Qed.

(** A decimal numeral starts with a digit: there is no space to skip and
    no sign to read. *)
Lemma decimal_starts_with_digit d :
  d <> Decimal.Nil ->
  skip_space (NilEmpty.string_of_uint d) = NilEmpty.string_of_uint d /\
  read_sign (NilEmpty.string_of_uint d) = (false, NilEmpty.string_of_uint d) /\
  (0 < Decimal.nb_digits d)%nat.
Proof. destruct d; try done; intros _; repeat split; cbn; lia. Qed.

Lemma string_of_uint_nonnil d :
  d <> Decimal.Nil -> NilZero.string_of_uint d = NilEmpty.string_of_uint d.
Proof. by destruct d. Qed.

Lemma g_ascii_strtoll_minus s :
  g_ascii_strtoll (String "-" s)
  = let '(v, n, rest) := read_digits 0 0 s in
    if n =? 0 then (0, String "-" s)
    else (Z.max G_MININT64 (Z.min G_MAXINT64 (- v)), rest).
Proof. reflexivity. Qed.

(** [g_ascii_strtoll] reads a decimal numeral whole, and gives the
    number it stands for, clamped to 64 bits. *)
Lemma g_ascii_strtoll_decimal z :
  g_ascii_strtoll (NilZero.string_of_int (Z.to_int z))
  = (Z.max G_MININT64 (Z.min G_MAXINT64 z), EmptyString).
Proof.
  destruct z as [|p|p]; [reflexivity|..];
    cbn [Z.to_int NilZero.string_of_int];
    pose proof (Unsigned.to_uint_nonnil p) as Hnil;
    rewrite (string_of_uint_nonnil _ Hnil);
    destruct (decimal_starts_with_digit _ Hnil) as (Hs & Hg & Hn).
  - unfold g_ascii_strtoll.
    rewrite Hs, Hg, read_digits_from_zero, Unsigned.of_to.
    destruct (Z.eqb_spec (0 + Z.of_nat (Decimal.nb_digits (Pos.to_uint p))) 0);
      [lia | reflexivity].
  - rewrite g_ascii_strtoll_minus, read_digits_from_zero, Unsigned.of_to.
    destruct (Z.eqb_spec (0 + Z.of_nat (Decimal.nb_digits (Pos.to_uint p))) 0);
      [lia | reflexivity].
Qed.

Section Configuration.
Context {LO : Libogg} {LV : Libvorbis} {TN : TagNames}.

(** X6 (error set exactly on failure).  [vorbis_encoder_configure]
    returns [false] exactly when it sets an error, and the error is one
    of the four of configuration; it writes the quality and the bitrate
    and no other field.  [vorbis_encoder_init] gives an encoder exactly
    when no error is set. *)
Theorem configure_sets_error_iff_fails e param :
  let result := vorbis_encoder_configure e param in
  let e' := snd result in
  (fst (fst result) = false <-> is_Some (snd (fst result))) /\
  (fst (fst result) = false <-> is_Some (configure_error result)) /\
  encoder_audio_format e' = encoder_audio_format e /\
  vd e' = vd e /\ vb e' = vb e /\ vi e' = vi e /\ stream e' = stream e /\
  (is_Some (fst (vorbis_encoder_init e param))
   <-> snd (vorbis_encoder_init e param) = None).
Proof.
  cbn zeta. unfold vorbis_encoder_init, vorbis_encoder_configure.
  destruct (config_get_block_string param "quality") as [value|].
  - destruct (g_ascii_strtod value) as [d endptr].
    destruct (_ || _ || _).
    + cbn. repeat split; try done; try (by eexists);
        intros H; try discriminate H; by destruct H.
    + destruct (config_get_block_string param "bitrate");
        cbn; repeat split; try done; try (by eexists);
        intros H; try discriminate H; by destruct H.
  - destruct (config_get_block_string param "bitrate") as [value|].
    + destruct (g_ascii_strtoll value) as [v endptr].
      destruct (_ || _);
        cbn; repeat split; try done; try (by eexists);
        intros H; try discriminate H; by destruct H.
    + cbn. repeat split; try done; try (by eexists);
        intros H; try discriminate H; by destruct H.
Qed.

(** X7 (decimal bitrates).  With no quality and the bitrate written as a
    decimal numeral for [z], configuration succeeds exactly when [z],
    clamped to 64 bits and cut to an [int], is positive; the encoder then
    holds that [int] as bitrate and -2 as quality.  So every bitrate from
    1 to [INT_MAX] is accepted and kept as it is, and 0 and the negative
    numbers down to -[INT_MAX] are refused with the bitrate error.
    Outside that range the cut to [int] decides: a bitrate above
    [INT_MAX] up to 2^32 is cut to a number that is not positive and
    refused, and a negative number from -(2^32 - 1) to -(2^31 + 1) is cut
    to the positive [z + 2^32] and accepted (-4294967295 as 1). *)
Theorem configure_decimal_bitrate e param z :
  config_get_block_string param "quality" = None ->
  config_get_block_string param "bitrate"
    = Some (NilZero.string_of_int (Z.to_int z)) ->
  let b := to_int (Z.max G_MININT64 (Z.min G_MAXINT64 z)) in
  let e' := set_bitrate (set_quality e (float_of_double c_minus_2)) b in
  vorbis_encoder_configure e param
    = (if 0 <? b then (true, None, e')
       else (false, Some (bitrate_should_be_positive (line param)), e')) /\
  (0 < z <= INT_MAX -> b = z) /\
  (- INT_MAX <= z <= 0 -> (0 <? b) = false) /\
  (INT_MAX < z <= 2 ^ 32 -> (0 <? b) = false) /\
  (- (2 ^ 32 - 1) <= z <= - (2 ^ 31 + 1) ->
   b = z + 2 ^ 32 /\ (0 <? b) = true).
Proof.
  intros Hq Hb b e'. split; [|split; [|split; [|split]]].
  - unfold vorbis_encoder_configure. rewrite Hq, Hb, g_ascii_strtoll_decimal.
    cbn [not_at_end orb bitrate set_bitrate]. fold b.
    destruct (Z.leb_spec b 0), (Z.ltb_spec 0 b); try lia; reflexivity.
  - intros Hz. unfold b, to_int, G_MININT64, G_MAXINT64, INT_MAX in *.
    rewrite Z.min_r, Z.max_r by lia. rewrite Z.mod_small; lia.
  - intros Hz. apply Z.ltb_ge.
    unfold b, to_int, G_MININT64, G_MAXINT64, INT_MAX in *.
    rewrite Z.min_r, Z.max_r by lia. rewrite Z.mod_small; lia.
  - intros Hz. apply Z.ltb_ge.
    unfold b, to_int, G_MININT64, G_MAXINT64, INT_MAX in *.
    rewrite Z.min_r, Z.max_r by lia.
    replace (z + 2 ^ 31) with (z - 2 ^ 31 + 1 * 2 ^ 32) by lia.
    rewrite Z.mod_add by lia. rewrite Z.mod_small; lia.
  - intros Hz.
    assert (b = z + 2 ^ 32) as ->.
    { unfold b, to_int, G_MININT64, G_MAXINT64 in *.
      rewrite Z.min_r, Z.max_r by lia.
      replace (z + 2 ^ 31) with (z + 2 ^ 32 + 2 ^ 31 + (-1) * 2 ^ 32) by lia.
      rewrite Z.mod_add by lia. rewrite Z.mod_small; lia. }
    split; [reflexivity|]. apply Z.ltb_lt. lia.
Qed.

End Configuration.

(* ===================================================================== *)
(** ** Further properties of open *)
(* ===================================================================== *)

(** Of two numbers, the first not below the second means the second at
    most the first. *)
Lemma SFleb_of_not_SFltb x y :
  x <> S754_nan -> y <> S754_nan -> SFltb x y = false -> SFleb y x = true.
Proof.
  unfold SFltb, SFleb.
  destruct x as [sx|sx| |sx mx ex], y as [sy|sy| |sy my ey]; try done;
    intros _ _; cbn; try (by destruct sx); try (by destruct sy);
    try (by destruct sx, sy).
  destruct sx, sy; try done.
  - rewrite (Z.compare_antisym ex ey).
    destruct (ex ?= ey); cbn; try done.
    change (Pos.compare_cont Eq my mx) with (my ?= mx)%positive.
    change (Pos.compare_cont Eq mx my) with (mx ?= my)%positive.
    rewrite (Pos.compare_antisym mx my).
    by destruct (mx ?= my)%positive.
  - rewrite (Z.compare_antisym ex ey).
    destruct (ex ?= ey); cbn; try done.
    change (Pos.compare_cont Eq my mx) with (my ?= mx)%positive.
    change (Pos.compare_cont Eq mx my) with (mx ?= my)%positive.
    rewrite (Pos.compare_antisym mx my).
    by destruct (mx ?= my)%positive.
Qed.

Section Open.
Context {LO : Libogg} {LV : Libvorbis} {TN : TagNames}.

Lemma vorbis_encoder_open_vbr e af serialno :
  dleb c_minus_1 (double_of_float (quality e)) = true ->
  fst (fst (fst (vorbis_encoder_open e af serialno))) = true
  <-> is_Some (encode_setup_vbr (channels af) (sample_rate af)
                 (float_of_double (dmul (double_of_float (quality e)) c_0_1))).
Proof.
  intros Hq. unfold vorbis_encoder_open, vorbis_encoder_reinit,
    vorbis_encode_init_vbr.
  cbn [quality bitrate encoder_audio_format vi set_vi set_audio_format
       channels sample_rate].
  rewrite Hq. destruct (encode_setup_vbr _ _ _); cbn; split; intros Hx;
    try done; try (by eexists); by destruct Hx.
Qed.

Lemma vorbis_encoder_open_managed e af serialno :
  dleb c_minus_1 (double_of_float (quality e)) = false ->
  fst (fst (fst (vorbis_encoder_open e af serialno))) = true
  <-> is_Some (encode_setup_managed (channels af) (sample_rate af)
                 (-1) (to_int (bitrate e * 1000)) (-1)).
Proof.
  intros Hq. unfold vorbis_encoder_open, vorbis_encoder_reinit,
    vorbis_encode_init.
  cbn [quality bitrate encoder_audio_format vi set_vi set_audio_format
       channels sample_rate].
  rewrite Hq. destruct (encode_setup_managed _ _ _ _ _); cbn; split;
    intros Hx; try done; try (by eexists); by destruct Hx.
Qed.

(** X8 (the mode configured is the mode opened).  After a successful
    configuration, [vorbis_encoder_open] asks libvorbis for the mode that
    was configured, and succeeds exactly when libvorbis accepts it: with
    a bitrate, which is positive, and whose thousandfold fits an [int],
    the managed mode at 1000 times the bitrate; with a quality that is a
    number, the VBR mode at a tenth of it.  (For a bitrate above
    2147483 the product overflows the [int]: C leaves that undefined,
    and nothing is said of it.) *)
Theorem open_uses_configured_mode e param e1 af serialno :
  vorbis_encoder_configure e param = (true, None, e1) ->
  let opened := fst (fst (fst (vorbis_encoder_open e1 af serialno))) in
  match config_get_block_string param "quality" with
  | Some _ =>
      double_of_float (quality e1) <> S754_nan ->
      (opened = true
       <-> is_Some (encode_setup_vbr (channels af) (sample_rate af)
                      (float_of_double
                         (dmul (double_of_float (quality e1)) c_0_1))))
  | None =>
      0 < bitrate e1 /\
      (bitrate e1 * 1000 <= INT_MAX ->
       (opened = true
        <-> is_Some (encode_setup_managed (channels af) (sample_rate af)
                       (-1) (bitrate e1 * 1000) (-1))))
  end.
Proof.
  cbn zeta. unfold vorbis_encoder_configure.
  destruct (config_get_block_string param "quality") as [value|].
  - destruct (g_ascii_strtod value) as [d endptr].
    cbn [quality set_quality].
    destruct (not_at_end endptr); [done|].
    destruct (dltb (double_of_float (float_of_double d)) c_minus_1) eqn:Hlo;
      [done|].
    cbn [orb]. destruct (dltb c_10 _); [done|].
    destruct (config_get_block_string param "bitrate"); [done|].
    intros [= <-] Hnan. apply vorbis_encoder_open_vbr.
    cbn [quality set_quality] in *.
    apply SFleb_of_not_SFltb; [done | | done].
    intros H. vm_compute in H. discriminate H.
  - destruct (config_get_block_string param "bitrate") as [value|]; [|done].
    destruct (g_ascii_strtoll value) as [v endptr].
    cbn [bitrate set_bitrate].
    destruct (not_at_end endptr); [done|]. cbn [orb].
    destruct (Z.leb_spec (to_int v) 0) as [|Hpos]; [done|].
    intros [= <-]. split; [exact Hpos|]. intros Hfit.
    cbn [bitrate set_bitrate] in *.
    rewrite <- (to_int_small (to_int v * 1000)) by lia.
    apply (vorbis_encoder_open_managed
             (set_bitrate (set_quality e (float_of_double c_minus_2))
                (to_int v)) af serialno).
    reflexivity.
Qed.

(** X9 (a failed open).  When [vorbis_encoder_open] returns [false], the
    error is one of the two of libvorbis initialisation, no call was made
    to the container stream, the info is cleared, and the configuration
    stands. *)
Theorem open_failure_begins_no_stream e af serialno error e' af' :
  vorbis_encoder_open e af serialno = (false, error, e', af') ->
  (error = Some error_initializing_vorbis_vbr \/
   error = Some error_initializing_vorbis_encoder) /\
  stream e' = stream e /\
  vi e' = vorbis_info_clear (vi e) /\
  vd e' = vd e /\ vb e' = vb e /\
  quality e' = quality e /\ bitrate e' = bitrate e.
Proof.
  unfold vorbis_encoder_open, vorbis_encoder_reinit,
    vorbis_encode_init_vbr, vorbis_encode_init.
  cbn [quality bitrate encoder_audio_format vi set_vi set_audio_format].
  destruct (dleb c_minus_1 (double_of_float (quality e))).
  - destruct (encode_setup_vbr _ _ _); cbn; [done|].
    intros [= <- <- <-]. cbn. tauto.
  - destruct (encode_setup_managed _ _ _ _ _); cbn; [done|].
    intros [= <- <- <-]. cbn. tauto.
Qed.

(** X10 (a successful open).  When [vorbis_encoder_open] returns [true]
    no error is set; the stream was begun with the serial number drawn
    and given the three headers libvorbis makes for a fresh analysis
    state and an empty comment list; the info holds the channel count
    and sample rate of the format and a setup; the codec is not at end of
    stream; and the configuration stands. *)
Theorem open_success_begins_stream e af serialno error e' af' :
  vorbis_encoder_open e af serialno = (true, error, e', af') ->
  error = None /\
  (exists op op_comm op_code,
     vorbis_analysis_headerout (vorbis_analysis_init (vi e'))
       vorbis_comment_init
       = (vd e', (op, op_comm, op_code)) /\
     stream e' = stream e ++ [Initialize serialno; PacketIn op;
                              PacketIn op_comm; PacketIn op_code]) /\
  serialno_of (stream e') = Some serialno /\
  serialno_assignments (stream e') = S (serialno_assignments (stream e)) /\
  eofflag (vd e') = false /\
  vi_channels (vi e') = channels af /\
  vi_rate (vi e') = sample_rate af /\
  is_Some (vi_codec_setup (vi e')) /\
  quality e' = quality e /\ bitrate e' = bitrate e.
Proof.
  unfold vorbis_encoder_open, vorbis_encoder_reinit,
    vorbis_encode_init_vbr, vorbis_encode_init.
  cbn [quality bitrate encoder_audio_format vi set_vi set_audio_format].
  assert (forall cs : codec_setup,
    let e1 :=
      set_stream
        (set_vb
           (set_vd
              (set_vi
                 (set_vi
                    (set_audio_format e
                       {| sample_rate := sample_rate af;
                          format := SAMPLE_FORMAT_FLOAT;
                          channels := channels af |})
                    vorbis_info_init)
                 {| vi_channels := channels af; vi_rate := sample_rate af;
                    vi_codec_setup := Some cs |})
              (vorbis_analysis_init
                 {| vi_channels := channels af; vi_rate := sample_rate af;
                    vi_codec_setup := Some cs |}))
           (vorbis_block_init
              (vorbis_analysis_init
                 {| vi_channels := channels af; vi_rate := sample_rate af;
                    vi_codec_setup := Some cs |})))
        (OggStream_call (stream e) (Initialize serialno)) in
    let e2 := vorbis_encoder_send_header e1 in
    (exists op op_comm op_code,
       vorbis_analysis_headerout (vorbis_analysis_init (vi e2))
         vorbis_comment_init = (vd e2, (op, op_comm, op_code)) /\
       stream e2 = stream e ++ [Initialize serialno; PacketIn op;
                                PacketIn op_comm; PacketIn op_code]) /\
    serialno_of (stream e2) = Some serialno /\
    serialno_assignments (stream e2) = S (serialno_assignments (stream e)) /\
    eofflag (vd e2) = false /\
    vi_channels (vi e2) = channels af /\
    vi_rate (vi e2) = sample_rate af /\
    is_Some (vi_codec_setup (vi e2)) /\
    quality e2 = quality e /\ bitrate e2 = bitrate e) as Hsuccess.
  { intros cs. cbn zeta. unfold vorbis_encoder_send_header.
    match goal with |- context [vorbis_encoder_headerout ?e1 _] =>
      destruct (vorbis_encoder_headerout_spec e1 vorbis_comment_init)
        as (vd' & a & b & c & E & _ & _ & _ & _ & Heof & ->) end.
    cbn [stream vd vb vi quality bitrate set_stream set_vb set_vd set_vi
         set_audio_format] in E, Heof |- *.
    unfold OggStream_call. rewrite <- app_assoc. cbn [app].
    split.
    { exists a, b, c. split; [exact E | reflexivity]. }
    unfold serialno_of.
    rewrite last_serialno_app, serialno_assignments_app.
    split; [reflexivity|]. split; [cbn; lia|].
    split; [exact Heof|]. split; [reflexivity|]. split; [reflexivity|].
    split; [by eexists|]. split; reflexivity. }
  destruct (dleb c_minus_1 (double_of_float (quality e))).
  - destruct (encode_setup_vbr _ _ _) as [cs|]; cbn; [|done].
    intros [= <- <- <-]. split; [done|]. apply (Hsuccess cs).
  - destruct (encode_setup_managed _ _ _ _ _) as [cs|]; cbn; [|done].
    intros [= <- <- <-]. split; [done|]. apply (Hsuccess cs).
Qed.

End Open.

Section NotANumber.
Context {LO : Libogg} {LV : Libvorbis} {TN : TagNames}.


End NotANumber.

(* ===================================================================== *)
(** ** Further properties of tags, writes and sessions *)
(* ===================================================================== *)

Lemma g_ascii_toupper_idempotent c :
  g_ascii_toupper (g_ascii_toupper c) = g_ascii_toupper c.
Proof. destruct c as [[] [] [] [] [] [] [] []]; reflexivity. Qed.

Lemma g_ascii_strup_idempotent s : g_ascii_strup (g_ascii_strup s) = g_ascii_strup s.
Proof.
  induction s as [|c s IH]; cbn; [done|].
  by rewrite g_ascii_toupper_idempotent, IH.
Qed.

Section Sessions.
Context {LO : Libogg} {LV : Libvorbis} {TN : TagNames}.

(** X12 (the comment of a tag).  [copy_tag_to_vorbis_comment] keeps what
    the comment held and adds one entry for each item of the tag, in the
    order of the items: the name of the item's type from the table,
    upper-cased (so upper-casing it again changes nothing), with the
    item's value as it is. *)
Theorem copy_tag_to_vorbis_comment_entries
    (vc : list (string * string)) (tag : list TagItem) :
  let r : list (string * string) := copy_tag_to_vorbis_comment vc tag in
  length r = (length vc + length tag)%nat /\
  take (length vc) r = vc /\
  (forall i item, tag !! i = Some item ->
     r !! (length vc + i)%nat
     = Some (g_ascii_strup (tag_item_names (type item)), value item)) /\
  (forall i name contents, (length vc <= i)%nat ->
     r !! i = Some (name, contents) -> g_ascii_strup name = name).
Proof.
  cbn zeta. rewrite copy_tag_to_vorbis_comment_fields. unfold comment_fields.
  split; [by rewrite length_app, length_map|].
  split; [by rewrite take_app_length|]. split.
  - intros i item Hi. rewrite lookup_app_r by lia.
    replace (length vc + i - length vc)%nat with i by lia.
    by rewrite list_lookup_fmap, Hi.
  - intros i name contents Hi. rewrite lookup_app_r by lia.
    rewrite list_lookup_fmap.
    destruct (tag !! (i - length vc)%nat) as [item|]; [|done].
    cbn. intros [= <- <-]. apply g_ascii_strup_idempotent.
Qed.

(** X13 (a write of less than a frame).  On an open session a write of
    fewer bytes than one frame, the empty write among them, reads no
    sample, whatever the buffer, and tells the analysis that 0 frames
    were written: as in [vorbis_encoder_pre_tag], that marks the end of
    the stream, and the marker is set when the write returns. *)
Theorem write_without_a_frame_marks_end_of_stream e data length :
  session_open e ->
  0 <= length < audio_format_frame_size (encoder_audio_format e) ->
  let e' :=
    vorbis_encoder_blockout
      (set_vd e
         (vorbis_analysis_wrote
            (vorbis_analysis_buffer_written (vd e)
               (vorbis_analysis_buffer (vd e) 0)) 0)) in
  vorbis_encoder_write e data length = Some (true, e') /\
  eofflag (vd e') = true.
Proof.
  intros Hopen Hlen e'.
  destruct (frame_size_open e Hopen) as [Hfs Hch].
  assert (write_num_frames e length = Some 0) as Enf.
  { unfold write_num_frames.
    destruct (Z.eqb_spec (audio_format_frame_size (encoder_audio_format e)) 0);
      [lia|].
    by rewrite Z.div_small. }
  split.
  - unfold vorbis_encoder_write. rewrite Enf. reflexivity.
  - unfold e'.
    match goal with |- context [vorbis_encoder_blockout ?x] =>
      destruct (vorbis_encoder_blockout_inv x)
        as ((_ & _ & _ & _ & _ & ->) & _) end.
    reflexivity.
Qed.

(** X14 (a write of whole frames).  On an open session a write of at least
    one whole frame that keeps the caller's side returns [true] and
    leaves the end-of-stream marker as it was. *)
Theorem write_of_frames_keeps_end_of_stream_marker e data length :
  session_open e -> write_input_ok e data length ->
  audio_format_frame_size (encoder_audio_format e) <= length ->
  length / audio_format_frame_size (encoder_audio_format e) <= INT_MAX ->
  exists e',
    vorbis_encoder_write e data length = Some (true, e') /\
    eofflag (vd e') = eofflag (vd e).
Proof.
  intros Hopen Hok Hlen Hint.
  destruct (frame_size_open e Hopen) as [Hfs Hch].
  destruct (vorbis_encoder_write_spec e data length Hopen Hok)
    as (buffer' & _ & _ & _ & _ & ->).
  eexists. split; [reflexivity|].
  match goal with |- context [vorbis_encoder_blockout ?x] =>
    destruct (vorbis_encoder_blockout_inv x)
      as ((_ & _ & _ & _ & _ & ->) & _) end.
  cbn [vd set_vd vorbis_analysis_wrote eofflag
       vorbis_analysis_buffer_written with_backend].
  assert (1 <= length / audio_format_frame_size (encoder_audio_format e)) as H1.
  { apply Z.div_le_lower_bound; lia. }
  unfold to_unsigned. unfold INT_MAX in Hint. rewrite Z.mod_small by lia.
  destruct (Z.leb_spec (length / audio_format_frame_size (encoder_audio_format e)) 0);
    [lia | reflexivity].
Qed.

(** X15 (the drain).  [vorbis_encoder_blockout] runs until
    [vorbis_analysis_blockout] hands out no further block; it submits
    audio packets to the stream and nothing else, and leaves the
    configuration, the format, the info and the end-of-stream marker as
    they were. *)
Theorem blockout_submits_audio_packets_only e :
  let e' := vorbis_encoder_blockout e in
  drained e e' /\
  (exists l, stream e' = stream e ++ l /\
             Forall (fun c => exists p, c = PacketIn p /\ kind p = Audio) l) /\
  quality e' = quality e /\ bitrate e' = bitrate e /\
  encoder_audio_format e' = encoder_audio_format e /\
  vi e' = vi e /\ vd_vi (vd e') = vd_vi (vd e) /\
  eofflag (vd e') = eofflag (vd e).
Proof.
  cbn zeta. split; [apply vorbis_encoder_blockout_drained|].
  destruct (vorbis_encoder_blockout_inv e) as (Hsame & Ha).
  split; [exact Ha | exact Hsame].
Qed.

Lemma apply_op_configuration e op e' :
  apply_op e op = Some e' ->
  quality e' = quality e /\ bitrate e' = bitrate e /\ vi e' = vi e.
Proof.
  destruct op as [data length| | |tag serialno|length]; cbn [apply_op].
  - unfold vorbis_encoder_write.
    destruct (write_num_frames e length) as [nf|]; [|done].
    destruct (interleaved_to_vorbis_buffer _ _ _ _) as [buffer'|]; [|done].
    intros [= <-].
    match goal with |- context [vorbis_encoder_blockout ?x] =>
      destruct (vorbis_encoder_blockout_inv x)
        as ((Hq & Hb & _ & Hvi & _) & _) end.
    by rewrite Hq, Hb, Hvi.
  - by intros [= <-].
  - rewrite vorbis_encoder_pre_tag_spec. cbn [snd]. intros [= <-].
    match goal with |- context [vorbis_encoder_blockout ?x] =>
      destruct (vorbis_encoder_blockout_inv x)
        as ((Hq & Hb & _ & Hvi & _) & _) end.
    cbn [quality bitrate vi]. by rewrite Hq, Hb, Hvi.
  - destruct (vorbis_encoder_tag_spec e tag serialno)
      as (vd' & a & b & c & _ & _ & _ & _ & _ & _ & ->).
    cbn [snd]. by intros [= <-].
  - by intros [= <-].
Qed.

(** X16 (what a session never changes).  Over any sequence of write,
    flush, preTag, updateTag and read, the quality, the bitrate, the
    audio format and the info stay what they were; the history of the
    stream only grows, and nothing in what is added begins a stream anew
    with [Initialize] or ends it with [Deinitialize]. *)
Theorem run_keeps_configuration ops : forall e e',
  run ops e = Some e' ->
  quality e' = quality e /\ bitrate e' = bitrate e /\
  encoder_audio_format e' = encoder_audio_format e /\
  vi e' = vi e /\
  exists l, stream e' = stream e ++ l /\
    Forall (fun c => c <> Deinitialize /\ forall n, c <> Initialize n) l.
Proof.
  induction ops as [|op ops IH]; intros e e'; cbn [run].
  - intros [= <-]. repeat split. exists []. split; [by rewrite app_nil_r|].
    constructor.
  - destruct (apply_op e op) as [e1|] eqn:E; [|done].
    intros Hrun. destruct (IH _ _ Hrun) as (Hq & Hb & Haf & Hvi & l2 & El2 & Hl2).
    destruct (apply_op_configuration _ _ _ E) as (Hq1 & Hb1 & Hvi1).
    destruct (apply_op_spec _ _ _ E) as (_ & Haf1 & l1 & El1 & Hl1).
    rewrite Hq, Hb, Haf, Hvi. repeat split; try done.
    exists (l1 ++ l2). split; [by rewrite El2, El1, app_assoc|].
    apply Forall_app. split; [|exact Hl2].
    destruct op.
    + eapply Forall_impl; [exact Hl1|]. intros c Hc. by destruct c.
    + eapply Forall_impl; [exact Hl1|]. intros c Hc. by destruct c.
    + eapply Forall_impl; [exact Hl1|]. intros c Hc. by destruct c.
    + destruct Hl1 as (a & b & c & _ & _ & _ & ->).
      by repeat constructor.
    + eapply Forall_impl; [exact Hl1|]. intros c Hc. by destruct c.
Qed.

Lemma run_keeps_info ops : forall e e',
  run ops e = Some e' -> vi e' = vi e.
Proof.
  induction ops as [|op ops IH]; intros e e'; cbn [run].
  - by intros [= <-].
  - destruct (apply_op e op) as [e1|] eqn:E; [|done].
    intros Hrun. rewrite (IH _ _ Hrun).
    by destruct (apply_op_configuration _ _ _ E) as (_ & _ & ->).
Qed.

(** X17 (the headers of the empty tag).  After a successful open and any
    operations, a preTag followed by an updateTag with the empty tag
    submits, behind the restart, the very three header packets the open
    submitted: preTag has made the analysis state afresh from the same
    info, and the comment list is empty as at the open. *)
Theorem empty_tag_resends_the_headers_of_open
    e0 af serial0 error e1 af' ops e2 serialno :
  vorbis_encoder_open e0 af serial0 = (true, error, e1, af') ->
  run ops e1 = Some e2 ->
  let e3 := snd (vorbis_encoder_pre_tag e2) in
  let e4 := snd (vorbis_encoder_tag e3 [] serialno) in
  vd e3 = vorbis_analysis_init (vi e1) /\
  vb e3 = vorbis_block_init (vd e3) /\
  vd e4 = vd e1 /\
  exists op op_comm op_code,
    stream e1 = stream e0 ++ [Initialize serial0; PacketIn op;
                              PacketIn op_comm; PacketIn op_code] /\
    stream e4 = stream e3 ++ [Reinitialize serialno; PacketIn op;
                              PacketIn op_comm; PacketIn op_code].
Proof.
  intros Hopen Hrun e3 e4.
  pose proof (run_keeps_info _ _ _ Hrun) as Hvi.
  assert (vd e3 = vorbis_analysis_init (vi e1)) as Hvd.
  { unfold e3. rewrite vorbis_encoder_pre_tag_spec. cbn [snd vd].
    match goal with |- context [vorbis_encoder_blockout ?x] =>
      destruct (vorbis_encoder_blockout_inv x)
        as ((_ & _ & _ & -> & _) & _) end.
    cbn [vi set_vd]. by rewrite Hvi. }
  assert (vb e3 = vorbis_block_init (vd e3)) as Hvb.
  { unfold e3. by rewrite vorbis_encoder_pre_tag_spec. }
  unfold vorbis_encoder_open in Hopen.
  destruct (vorbis_encoder_reinit _ _) as [[ok err] er] eqn:Er.
  destruct ok; cbn in Hopen; [|done]. injection Hopen as <- <- <-.
  apply vorbis_encoder_reinit_true in Er as (_ & Es & _ & _ & Evd & _).
  unfold vorbis_encoder_send_header in *.
  destruct (vorbis_encoder_headerout_spec er vorbis_comment_init)
    as (vd' & a & b & c & E & _ & _ & _ & _ & _ & Eq).
  rewrite Eq in *. cbn [vi vd stream] in *.
  destruct (vorbis_encoder_tag_spec e3 [] serialno)
    as (vd2 & a2 & b2 & c2 & E2 & _ & _ & _ & _ & _ & Eq2).
  change (comment_fields []) with vorbis_comment_init in E2.
  rewrite Hvd, <- Evd, E in E2. injection E2 as <- <- <- <-.
  split; [exact Hvd|]. split; [exact Hvb|].
  unfold e4. rewrite Eq2. cbn [snd vd stream]. split; [reflexivity|].
  exists a, b, c. split; [|reflexivity].
  rewrite Es. cbn [stream set_audio_format]. by rewrite <- app_assoc.
Qed.

End Sessions.

(* ===================================================================== *)
(** ** Further properties of the de-interleaving *)
(* ===================================================================== *)

Section Deinterleave.

Lemma interleave_frame_Some n : forall dest src i j dest' src',
  interleave_frame dest src i j n = Some (dest', src') ->
  src' = drop n src /\ (n <= length src)%nat /\
  length dest' = length dest /\
  (forall k, length <$> dest' !! k = length <$> dest !! k) /\
  (forall k, (j <= k < j + n)%nat -> cell dest' k i = src !! (k - j)%nat) /\
  (forall k i', ~ ((j <= k < j + n)%nat /\ i' = i) ->
                cell dest' k i' = cell dest k i').
Proof.
  induction n as [|n IH]; intros dest src i j dest' src'.
  - cbn. intros [= <- <-]. repeat split; intros; try lia; done.
  - cbn [interleave_frame].
    destruct src as [|x src]; [done|].
    destruct (dest !! j) as [row|] eqn:Hrow; [|done].
    destruct (decide (i < length row)%nat) as [Hi|]; [|done].
    intros E. apply IH in E as (-> & Hlen & Hd & Hrows & Hnew & Hold).
    split; [done|]. split; [cbn; lia|].
    split; [by rewrite Hd, length_insert|]. split; [|split].
    + intros k. rewrite Hrows.
      destruct (decide (k = j)) as [->|Hne].
      * rewrite list_lookup_insert_eq by (by eapply lookup_lt_Some).
        rewrite Hrow. cbn. by rewrite length_insert.
      * by rewrite list_lookup_insert_ne.
    + intros k Hk. destruct (decide (k = j)) as [->|Hne].
      * rewrite Hold by lia. rewrite Nat.sub_diag. cbn.
        by apply cell_insert_eq.
      * rewrite Hnew by lia.
        by replace (k - j)%nat with (S (k - S j)) by lia.
    + intros k i' Hne. rewrite Hold by lia.
      apply cell_insert_ne; [done | lia].
Qed.

Lemma interleave_frames_Some n : forall dest src i nc dest',
  interleave_frames dest src i n nc = Some dest' ->
  (n * nc <= length src)%nat /\
  length dest' = length dest /\
  (forall k, length <$> dest' !! k = length <$> dest !! k) /\
  (forall f k, (f < n)%nat -> (k < nc)%nat ->
               cell dest' k (i + f) = src !! (f * nc + k)%nat) /\
  (forall k i', ~ ((k < nc)%nat /\ (i <= i' < i + n)%nat) ->
                cell dest' k i' = cell dest k i').
Proof.
  induction n as [|n IH]; intros dest src i nc dest'.
  - cbn. intros [= <-]. repeat split; intros; try lia; done.
  - cbn [interleave_frames].
    destruct (interleave_frame dest src i 0 nc) as [[dest1 src1]|] eqn:E1;
      [|done].
    apply interleave_frame_Some in E1
      as (-> & Hlen1 & Hd1 & Hrows1 & Hnew1 & Hold1).
    intros E. apply IH in E as (Hlen & Hd & Hrows & Hnew & Hold).
    rewrite length_drop in Hlen.
    split; [lia|]. split; [congruence|]. split; [|split].
    + intros k. by rewrite Hrows, Hrows1.
    + intros f k Hf Hk. destruct f as [|f].
      * rewrite Nat.add_0_r. rewrite Hold by lia. rewrite Hnew1 by lia.
        f_equal. lia.
      * replace (i + S f)%nat with (S i + f)%nat by lia.
        rewrite Hnew by lia. rewrite lookup_drop. f_equal. lia.
    + intros k i' Hne. rewrite Hold by lia. apply Hold1. lia.
Qed.

Lemma channels_read_back (g : nat -> option float) (src : list float) nc :
  (forall k, (k < nc)%nat -> g k = src !! k) -> (nc <= length src)%nat ->
  map g (seq 0 nc) = map Some (take nc src).
Proof.
  intros Hg Hlen. apply list_eq. intros k. rewrite !list_lookup_fmap.
  destruct (decide (k < nc)%nat) as [Hk|Hk].
  - rewrite lookup_seq_lt by done. rewrite lookup_take_lt by done. cbn.
    rewrite Hg by done.
    destruct (lookup_lt_is_Some_2 src k) as [x ->]; [lia | done].
  - rewrite lookup_seq_ge by lia. by rewrite lookup_take_ge by lia.
Qed.

Lemma frames_read_back n : forall (buffer : list (list float)) src i nc,
  (forall f k, (f < n)%nat -> (k < nc)%nat ->
               cell buffer k (i + f) = src !! (f * nc + k)%nat) ->
  (n * nc <= length src)%nat ->
  flat_map (fun f => map (fun k => cell buffer k f) (seq 0 nc)) (seq i n)
  = map Some (take (n * nc) src).
Proof.
  induction n as [|n IH]; intros buffer src i nc Hcells Hlen; [done|].
  cbn [seq flat_map].
  replace (S n * nc)%nat with (nc + n * nc)%nat by lia.
  rewrite <- take_take_drop, map_app. f_equal.
  - apply channels_read_back; [|lia].
    intros k Hk. pose proof (Hcells 0%nat k ltac:(lia) Hk) as Hc.
    rewrite Nat.add_0_r in Hc. exact Hc.
  - apply IH; [|rewrite length_drop; lia].
    intros f k Hf Hk. rewrite lookup_drop.
    replace (S i + f)%nat with (i + S f)%nat by lia.
    rewrite Hcells by lia. f_equal. lia.
Qed.

(** X18 (de-interleaving succeeds exactly on enough source).  Into
    buffers with room for the frames of each channel,
    [interleaved_to_vorbis_buffer] stays inside its source exactly when
    the source holds frames x channels samples. *)
Theorem interleaved_to_vorbis_buffer_bounds dest src num_frames num_channels :
  0 <= num_frames -> 0 <= num_channels ->
  roomy dest (Z.to_nat num_channels) (Z.to_nat num_frames) ->
  is_Some (interleaved_to_vorbis_buffer dest src num_frames num_channels)
  <-> num_frames * num_channels <= Z.of_nat (length src).
Proof.
  intros Hf Hc Hroomy. unfold interleaved_to_vorbis_buffer. split.
  - intros [dest' E]. apply interleave_frames_Some in E as (Hlen & _). nia.
  - intros Hlen.
    destruct (interleave_frames_spec (Z.to_nat num_frames) dest src 0
                (Z.to_nat num_channels) (Z.to_nat num_frames))
      as (dest' & -> & _); [done | lia | nia | by eexists].
Qed.

(** X19 (round trip).  When [interleaved_to_vorbis_buffer] succeeds, the
    buffers read back frame by frame, channel by channel, are the first
    frames x channels samples of the source, in order. *)
Theorem interleaved_to_vorbis_buffer_read_back
    dest src num_frames num_channels dest' :
  interleaved_to_vorbis_buffer dest src num_frames num_channels = Some dest' ->
  vorbis_buffer_to_interleaved dest' num_frames num_channels
  = map Some (take (Z.to_nat num_frames * Z.to_nat num_channels) src).
Proof.
  unfold interleaved_to_vorbis_buffer, vorbis_buffer_to_interleaved.
  intros E. apply interleave_frames_Some in E as (Hlen & _ & _ & Hnew & _).
  apply frames_read_back; [|done].
  intros f k Hf Hk. by apply Hnew.
Qed.

(** X20 (what de-interleaving leaves alone).  When
    [interleaved_to_vorbis_buffer] succeeds, there are as many buffers
    as before, each as long as before, and every cell outside the frames
    and channels written holds what it held. *)
Theorem interleaved_to_vorbis_buffer_frame
    dest src num_frames num_channels dest' :
  interleaved_to_vorbis_buffer dest src num_frames num_channels = Some dest' ->
  length dest' = length dest /\
  (forall j, length <$> dest' !! j = length <$> dest !! j) /\
  (forall j i, ~ ((j < Z.to_nat num_channels)%nat /\
                  (i < Z.to_nat num_frames)%nat) ->
               cell dest' j i = cell dest j i).
Proof.
  unfold interleaved_to_vorbis_buffer.
  intros E. apply interleave_frames_Some in E as (_ & Hd & Hrows & _ & Hold).
  split; [done|]. split; [done|].
  intros j i Hne. apply Hold. lia.
Qed.

End Deinterleave.

(* ===================================================================== *)
(** ** The further properties on concrete inputs *)
(* ===================================================================== *)

Section ConcreteFurther.
Import Reference.
#[local] Existing Instances ogg vorbis tags.

Ltac evaluated :=
  repeat split; vm_compute; first [reflexivity | discriminate].

Lemma configure_decimal_bitrate_witness :
  let param := params [("bitrate", "128")]%string in
  config_get_block_string param "quality" = None /\
  config_get_block_string param "bitrate"
    = Some (NilZero.string_of_int (Z.to_int 128)) /\
  vorbis_encoder_configure fresh param
    = (true, None,
       set_bitrate (set_quality fresh (float_of_double c_minus_2)) 128).
Proof.
  cbn zeta.
  assert (config_get_block_string (params [("bitrate", "128")]%string)
            "quality" = None) as Hq by reflexivity.
  assert (config_get_block_string (params [("bitrate", "128")]%string)
            "bitrate" = Some (NilZero.string_of_int (Z.to_int 128))) as Hb
    by reflexivity.
  split; [exact Hq|]. split; [exact Hb|].
  exact (proj1 (configure_decimal_bitrate fresh
                  (params [("bitrate", "128")]%string) 128 Hq Hb)).
Defined.

Lemma open_uses_configured_mode_witness :
  let e128 :=
    set_bitrate (set_quality fresh (float_of_double c_minus_2)) 128 in
  vorbis_encoder_configure fresh (params [("quality", "5.0")]%string)
    = (true, None, configured) /\
  (double_of_float (quality configured) <> S754_nan ->
   fst (fst (fst (vorbis_encoder_open configured cd_audio 7))) = true
   <-> is_Some (encode_setup_vbr (channels cd_audio) (sample_rate cd_audio)
                  (float_of_double
                     (dmul (double_of_float (quality configured)) c_0_1)))) /\
  vorbis_encoder_configure fresh (params [("bitrate", "128")]%string)
    = (true, None, e128) /\
  bitrate e128 * 1000 <= INT_MAX /\
  (fst (fst (fst (vorbis_encoder_open e128 cd_audio 7))) = true
   <-> is_Some (encode_setup_managed (channels cd_audio) (sample_rate cd_audio)
                  (-1) (bitrate e128 * 1000) (-1))).
Proof.
  cbn zeta.
  assert (vorbis_encoder_configure fresh (params [("quality", "5.0")]%string)
          = (true, None, configured)) as Hc by (vm_compute; reflexivity).
  assert (vorbis_encoder_configure fresh (params [("bitrate", "128")]%string)
          = (true, None,
             set_bitrate (set_quality fresh (float_of_double c_minus_2)) 128))
    as Hb by (vm_compute; reflexivity).
  assert (bitrate (set_bitrate (set_quality fresh (float_of_double c_minus_2))
                     128) * 1000 <= INT_MAX) as Hfit
    by (vm_compute; discriminate).
  split; [exact Hc|]. split.
  { exact (open_uses_configured_mode fresh (params [("quality", "5.0")]%string)
             configured cd_audio 7 Hc). }
  split; [exact Hb|]. split; [exact Hfit|].
  exact (proj2 (open_uses_configured_mode fresh
                  (params [("bitrate", "128")]%string) _ cd_audio 7 Hb) Hfit).
Defined.

Lemma open_failure_begins_no_stream_witness :
  let r := vorbis_encoder_open configured
             (mk_audio_format 44100 SAMPLE_FORMAT_S16 0) 7 in
  r = (false, Some error_initializing_vorbis_vbr, snd (fst r), snd r) /\
  stream (snd (fst r)) = stream configured /\
  vi (snd (fst r)) = vorbis_info_clear (vi configured).
Proof.
  cbn zeta.
  set (r := vorbis_encoder_open configured
              (mk_audio_format 44100 SAMPLE_FORMAT_S16 0) 7).
  assert (r = (false, Some error_initializing_vorbis_vbr, snd (fst r), snd r))
    as Hr by (vm_compute; reflexivity).
  pose proof (open_failure_begins_no_stream configured _ 7 _ _ _ Hr)
    as (_ & Hs & Hvi & _).
  split; [exact Hr|]. split; [exact Hs | exact Hvi].
Defined.

Lemma open_success_begins_stream_witness :
  vorbis_encoder_open configured cd_audio 7
    = (true, None, opened, encoder_audio_format opened) /\
  serialno_of (stream opened) = Some 7 /\
  eofflag (vd opened) = false /\
  vi_channels (vi opened) = 2 /\ vi_rate (vi opened) = 44100.
Proof.
  assert (vorbis_encoder_open configured cd_audio 7
          = (true, None, opened, encoder_audio_format opened)) as Ho
    by (vm_compute; reflexivity).
  pose proof (open_success_begins_stream configured cd_audio 7 None opened _ Ho)
    as (_ & _ & Hs & _ & He & Hc & Hr & _).
  split; [exact Ho|]. split; [exact Hs|]. split; [exact He|].
  split; [exact Hc | exact Hr].
Defined.

Lemma write_without_a_frame_marks_end_of_stream_witness :
  session_open opened /\
  0 <= 7 < audio_format_frame_size (encoder_audio_format opened) /\
  exists e',
    vorbis_encoder_write opened eight_frames 7 = Some (true, e') /\
    eofflag (vd e') = true.
Proof.
  assert (session_open opened) as H0 by evaluated.
  assert (0 <= 7 < audio_format_frame_size (encoder_audio_format opened))
    as H1 by evaluated.
  split; [exact H0|]. split; [exact H1|].
  eexists.
  exact (write_without_a_frame_marks_end_of_stream opened eight_frames 7
           H0 H1).
Defined.

Lemma write_of_frames_keeps_end_of_stream_marker_witness :
  session_open opened /\
  write_input_ok opened eight_frames 64 /\
  audio_format_frame_size (encoder_audio_format opened) <= 64 /\
  64 / audio_format_frame_size (encoder_audio_format opened) <= INT_MAX /\
  exists e',
    vorbis_encoder_write opened eight_frames 64 = Some (true, e') /\
    eofflag (vd e') = eofflag (vd opened).
Proof.
  assert (session_open opened) as H0 by evaluated.
  assert (write_input_ok opened eight_frames 64) as H1 by evaluated.
  assert (audio_format_frame_size (encoder_audio_format opened) <= 64) as H2
    by evaluated.
  assert (64 / audio_format_frame_size (encoder_audio_format opened)
          <= INT_MAX) as H3 by evaluated.
  split; [exact H0|]. split; [exact H1|]. split; [exact H2|].
  split; [exact H3|].
  exact (write_of_frames_keeps_end_of_stream_marker opened eight_frames 64
           H0 H1 H2 H3).
Defined.

Lemma run_keeps_configuration_witness :
  run a_session opened = Some after_session /\
  quality after_session = quality opened /\
  bitrate after_session = bitrate opened /\
  encoder_audio_format after_session = encoder_audio_format opened /\
  vi after_session = vi opened.
Proof.
  assert (run a_session opened = Some after_session) as Hrun
    by (vm_compute; reflexivity).
  pose proof (run_keeps_configuration a_session opened after_session Hrun)
    as (Hq & Hb & Haf & Hvi & _).
  split; [exact Hrun|]. split; [exact Hq|]. split; [exact Hb|].
  split; [exact Haf | exact Hvi].
Defined.

Lemma empty_tag_resends_the_headers_of_open_witness :
  vorbis_encoder_open configured cd_audio 7
    = (true, None, opened, encoder_audio_format opened) /\
  run a_session opened = Some after_session /\
  vd (snd (vorbis_encoder_tag (snd (vorbis_encoder_pre_tag after_session))
             [] 11))
  = vd opened.
Proof.
  assert (vorbis_encoder_open configured cd_audio 7
          = (true, None, opened, encoder_audio_format opened)) as Ho
    by (vm_compute; reflexivity).
  assert (run a_session opened = Some after_session) as Hrun
    by (vm_compute; reflexivity).
  pose proof (empty_tag_resends_the_headers_of_open configured cd_audio 7 None
                opened _ a_session after_session 11 Ho Hrun)
    as (_ & _ & Hvd & _).
  split; [exact Ho|]. split; [exact Hrun | exact Hvd].
Defined.

Lemma interleaved_to_vorbis_buffer_bounds_witness :
  let dest := [[sample 0; sample 0]; [sample 0; sample 0]] in
  0 <= 2 /\ 0 <= 2 /\
  roomy dest (Z.to_nat 2) (Z.to_nat 2) /\
  (is_Some (interleaved_to_vorbis_buffer dest
              [sample 1; sample 2; sample 3] 2 2)
   <-> 2 * 2 <= Z.of_nat (length [sample 1; sample 2; sample 3])).
Proof.
  cbn zeta.
  assert (roomy [[sample 0; sample 0]; [sample 0; sample 0]]
            (Z.to_nat 2) (Z.to_nat 2)) as Hroomy.
  { split; [cbn; lia|].
    intros [|[|k]] row Hk; cbn; intros [= <-]; cbn; lia. }
  split; [lia|]. split; [lia|]. split; [exact Hroomy|].
  apply (interleaved_to_vorbis_buffer_bounds _ _ 2 2); [lia | lia | exact Hroomy].
Defined.

Lemma interleaved_to_vorbis_buffer_read_back_witness :
  let src := [sample 1; sample 2; sample 3; sample 4; sample 5] in
  let dest := [[sample 0; sample 0]; [sample 0; sample 0]] in
  let dest' := [[sample 1; sample 3]; [sample 2; sample 4]] in
  interleaved_to_vorbis_buffer dest src 2 2 = Some dest' /\
  vorbis_buffer_to_interleaved dest' 2 2
  = [Some (sample 1); Some (sample 2); Some (sample 3); Some (sample 4)].
Proof.
  cbn zeta.
  assert (interleaved_to_vorbis_buffer
            [[sample 0; sample 0]; [sample 0; sample 0]]
            [sample 1; sample 2; sample 3; sample 4; sample 5] 2 2
          = Some [[sample 1; sample 3]; [sample 2; sample 4]]) as E
    by reflexivity.
  split; [exact E|].
  exact (interleaved_to_vorbis_buffer_read_back _ _ 2 2 _ E).
Defined.

Lemma interleaved_to_vorbis_buffer_frame_witness :
  let src := [sample 1; sample 2] in
  let dest := [[sample 7; sample 8]; [sample 9]] in
  let dest' := [[sample 1; sample 8]; [sample 2]] in
  interleaved_to_vorbis_buffer dest src 1 2 = Some dest' /\
  length dest' = length dest /\
  cell dest' 0 1 = cell dest 0 1.
Proof.
  cbn zeta.
  assert (interleaved_to_vorbis_buffer [[sample 7; sample 8]; [sample 9]]
            [sample 1; sample 2] 1 2
          = Some [[sample 1; sample 8]; [sample 2]]) as E by reflexivity.
  pose proof (interleaved_to_vorbis_buffer_frame _ _ 1 2 _ E)
    as (Hd & _ & Hcells).
  split; [exact E|]. split; [exact Hd|].
  apply Hcells. cbn. lia.
Defined.

End ConcreteFurther.

Section ConcreteNotANumber.
Import Reference.
#[local] Existing Instances ogg vorbis tags.


End ConcreteNotANumber.
